(** * Insta360 X4 RTMP streamer: a shallow embedding of the stitching
      pipeline and of the stream sink, with the properties of both.

    The development follows the Python sources:
    - [rtmp_streamer.py]       -> module [RTMPStreamer]
    - [insta360_processor.py]  -> module [Insta360Processor]
    - [advanced_processing.py] -> module [advanced_processing]

    Floating-point numbers.  The projection table is computed as the
    code computes it, in binary64: the numbers are the kernel's
    floating-point numbers, the functions numpy takes from the C library
    ([cos], [sin], [arccos], [arctan2]) are parameters, and what is
    stored in the table is rounded to float32.  The weights of the
    offline seam blend and the fractions of the histogram are rationals
    rounded to float32 or binary64 after every operation, as the
    formats do.  The pacing of the stream and the weights of
    [_blend_seam] are rationals.
    Python exceptions are values of [exn] carried by the [result] type. *)

From Stdlib Require Import ZArith QArith Qminmax Qround Qpower List String Ascii Bool Lia.
From Stdlib Require Lqa Floats Uint63.
Import ListNotations.
Open Scope list_scope.

(* ================================================================== *)
(** * Part I: definitions                                              *)
(* ================================================================== *)

(** ** Python run-time notions shared by the three source files *)
Module Py.

Inductive exn : Type :=
| ValueError       (* numpy shape errors, unsupported detector name *)
| AttributeError   (* reading an attribute that was never assigned *)
| IndexError
| cv2_error        (* raised by OpenCV on an invalid argument *)
| ZeroDivisionError
| OverflowError    (* an integer too large for a float *)
| Full             (* queue.Full *)
| Empty.           (* queue.Empty *)

Inductive result (A : Type) : Type :=
| Ok (a : A)
| Raise (e : exn).
Arguments Ok {A} a.
Arguments Raise {A} e.

Definition bind {A B} (m : result A) (k : A -> result B) : result B :=
  match m with
  | Ok a => k a
  | Raise e => Raise e
  end.

(** An attribute of an instance: Python creates it at its first
    assignment, and reading it earlier raises [AttributeError]. *)
Inductive attr (A : Type) : Type :=
| Unset
| Assigned (a : A).
Arguments Unset {A}.
Arguments Assigned {A} a.

Definition getattr {A} (a : attr A) : result A :=
  match a with
  | Unset => Raise AttributeError
  | Assigned v => Ok v
  end.

(** [range(n)]: empty when [n <= 0]. *)
Definition range (n : Z) : list Z := map Z.of_nat (seq 0 (Z.to_nat n)).

(** [for a in l: body], threading the state the body updates and
    stopping at the first exception. *)
Fixpoint for_each {S A : Type} (l : list A) (body : A -> S -> result S)
         (s : S) : result S :=
  match l with
  | [] => Ok s
  | a :: rest => bind (body a s) (for_each rest body)
  end.

(** The builtin [max(a, b)] on numbers: [b] replaces [a] only when
    [b > a]. *)
Definition max (a b : Q) : Q := if Qlt_le_dec a b then b else a.

(** The conversion Python applies to an integer operand of a float
    operation: the nearest binary64 number, and [OverflowError] beyond
    the range of the format.  [int63_float] is the conversion of the
    integers below [2^63] in size, among them every dimension of an
    array. *)
Definition int63_float (z : Z) : PrimFloat.float :=
  if (z <? 0)%Z
  then PrimFloat.opp (PrimFloat.of_uint63 (Uint63.of_Z (- z)))
  else PrimFloat.of_uint63 (Uint63.of_Z z).

Definition float_of_int (z : Z) : result PrimFloat.float :=
  if (Z.abs z <? 2 ^ 63)%Z then Ok (int63_float z)
  else
    let f := FloatOps.SF2Prim (SpecFloat.binary_normalize 53 1024 z 0 false) in
    if PrimFloat.is_infinity f then Raise OverflowError else Ok f.

(** [a / b] for a float [a] and an integer [b]: [b] is converted, and
    a divisor of zero raises (the converted divisor is [0.0] exactly
    when [b] is [0]). *)
Definition truediv_int (a : PrimFloat.float) (b : Z) : result PrimFloat.float :=
  bind (float_of_int b)
       (fun fb => if (b =? 0)%Z then Raise ZeroDivisionError
                  else Ok (PrimFloat.div a fb)).

End Py.

Declare Scope py_scope.
Delimit Scope py_scope with py.
Notation "x <- m ;; k" := (Py.bind m (fun x => k))
  (at level 61, m at next level, right associativity) : py_scope.

(* ------------------------------------------------------------------ *)
(** ** queue.Queue of the Python standard library (bounded FIFO)       *)
(* ------------------------------------------------------------------ *)
Module Queue.
Import Py.

Record t (A : Type) : Type := mk { maxsize : Z; items : list A }.
Arguments mk {A} maxsize items.
Arguments maxsize {A} _.
Arguments items {A} _.

Definition new {A} (maxsize : Z) : t A := mk maxsize [].

Definition qsize {A} (q : t A) : Z := Z.of_nat (List.length (items q)).

Definition empty {A} (q : t A) : bool := (qsize q =? 0)%Z.

(** [0 < maxsize <= qsize]: a queue with [maxsize <= 0] is unbounded. *)
Definition full {A} (q : t A) : bool :=
  ((0 <? maxsize q) && (maxsize q <=? qsize q))%Z.

Definition put_nowait {A} (q : t A) (x : A) : result (t A) :=
  if ((0 <? maxsize q) && (maxsize q <=? qsize q))%Z
  then Raise Full
  else Ok (mk (maxsize q) (items q ++ [x])).

Definition get_nowait {A} (q : t A) : result (A * t A) :=
  match items q with
  | [] => Raise Empty
  | x :: rest => Ok (x, mk (maxsize q) rest)
  end.

End Queue.

(* ------------------------------------------------------------------ *)
(** ** rtmp_streamer.py                                                *)
(* ------------------------------------------------------------------ *)
Module RTMPStreamer.
Import Py.
Local Open Scope py_scope.

(** A video frame as the streamer sees it: its [shape] (rows, columns)
    and the sequence number of the captured frame its pixels derive
    from. *)
Record frame : Type := mkframe { shape : nat * nat; seqno : nat }.

(** [cv2.resize(frame, (width, height))]: OpenCV refuses an empty
    source and a non-positive target size; otherwise the result has
    the requested shape and shows the same picture. *)
Definition cv2_resize (f : frame) (dsize : Z * Z) : result frame :=
  let '(w, h) := dsize in
  if ((w <=? 0) || (h <=? 0))%Z
     || (fst (shape f) =? 0)%nat || (snd (shape f) =? 0)%nat
  then Raise cv2_error
  else Ok (mkframe (Z.to_nat h, Z.to_nat w) (seqno f)).

(** Handles on the consumer thread and on the ffmpeg process. *)
Record Thread : Type := mkthread { tid : nat }.
Record Popen : Type := mkproc { pid : nat }.

Record t : Type := mk {
  rtmp_url : string;
  width : Z;
  height : Z;
  fps : Z;
  bitrate : string;
  running : bool;
  frame_queue : Queue.t frame;
  process : option Popen;
  thread : option Thread
}.

Definition set_running (b : bool) (self : t) : t :=
  mk (rtmp_url self) (width self) (height self) (fps self) (bitrate self)
     b (frame_queue self) (process self) (thread self).

Definition set_frame_queue (q : Queue.t frame) (self : t) : t :=
  mk (rtmp_url self) (width self) (height self) (fps self) (bitrate self)
     (running self) q (process self) (thread self).

Definition set_process (p : option Popen) (self : t) : t :=
  mk (rtmp_url self) (width self) (height self) (fps self) (bitrate self)
     (running self) (frame_queue self) p (thread self).

Definition set_thread (th : option Thread) (self : t) : t :=
  mk (rtmp_url self) (width self) (height self) (fps self) (bitrate self)
     (running self) (frame_queue self) (process self) th.

(** [__init__(rtmp_url, width=3840, height=1920, fps=30, bitrate='4000k')] *)
Definition __init__ (rtmp_url : string) (width height fps : Z)
           (bitrate : string) : t :=
  mk rtmp_url width height fps bitrate
     false (Queue.new 10) None None.

(** [push_frame]: the boolean is the returned value, the streamer is
    the instance after the call. *)
Definition push_frame (self : t) (frame0 : frame) : result (bool * t) :=
  if negb (running self) then Ok (false, self)
  else
    frame1 <- (if negb (Z.of_nat (fst (shape frame0)) =? height self)%Z
                  || negb (Z.of_nat (snd (shape frame0)) =? width self)%Z
               then cv2_resize frame0 (width self, height self)
               else Ok frame0) ;;
    let q1 :=
      if Queue.full (frame_queue self)
      then match Queue.get_nowait (frame_queue self) with
           | Ok (_, q) => q
           | Raise _ => frame_queue self       (* except: pass *)
           end
      else frame_queue self in
    match Queue.put_nowait q1 frame1 with
    | Ok q2 => Ok (true, set_frame_queue q2 self)
    | Raise _ => Ok (false, set_frame_queue q1 self)   (* except: return False *)
    end.

(** Pushing a list of frames one after the other with nothing taken
    out in between: the returned values and the streamer after every
    push, in order. *)
Fixpoint push_frames (self : t) (frames : list frame)
  : result (list (bool * t)) :=
  match frames with
  | [] => Ok []
  | f :: rest =>
      r <- push_frame self f ;;
      rs <- push_frames (snd r) rest ;;
      Ok (r :: rs)
  end.

(** *** start and stop.  The calls made on the thread and on the
    process are recorded, in order, next to the instance. *)
Inductive os_call : Type :=
| thread_start (th : Thread)
| thread_join (th : Thread) (timeout : Q)
| proc_terminate (p : Popen)
| proc_wait (p : Popen) (timeout : Q)
| proc_kill (p : Popen).

(** [start]: [new_thread] is the thread object [threading.Thread]
    hands back. *)
Definition start (self : t) (new_thread : Thread) : t * list os_call :=
  if running self then (self, [])
  else (set_thread (Some new_thread) (set_running true self),
        [thread_start new_thread]).

(** The [while not self.frame_queue.empty()] loop of [stop]; every
    turn removes one frame, so [fuel] turns empty a queue of [fuel]
    frames. *)
Fixpoint drain (fuel : nat) (q : Queue.t frame) : Queue.t frame :=
  match fuel with
  | O => q
  | S n =>
      if Queue.empty q then q
      else match Queue.get_nowait q with
           | Ok (_, q') => drain n q'
           | Raise _ => drain n q             (* except: pass *)
           end
  end.

(** [stop]: [wait_expires] tells whether [process.wait(timeout=5.0)]
    raises [subprocess.TimeoutExpired]. *)
Definition stop (self : t) (wait_expires : bool) : result (t * list os_call) :=
  let self1 := set_running false self in
  let joined :=
    match thread self1 with
    | Some th => [thread_join th 1]
    | None => []
    end in
  let '(self2, ended) :=
    match process self1 with
    | Some p =>
        (set_process None self1,
         [proc_terminate p; proc_wait p 5]
           ++ (if wait_expires then [proc_kill p] else []))
    | None => (self1, [])
    end in
  let q := drain (List.length (Queue.items (frame_queue self2)))
                 (frame_queue self2) in
  Ok (set_frame_queue q self2, joined ++ ended).

(** *** The consumer loop of [_stream_loop].

    What one turn of the loop observes from outside: whether the
    process is still alive ([process.poll() is None]), the two readings
    of [time.time()], and whether the write to the pipe succeeds. *)
Record observation : Type := mkobs {
  poll_is_None : bool;
  time_at_get : Q;
  time_at_update : Q;
  pipe_accepts : bool
}.

Inductive action : Type :=
| sleep (seconds : Q)
| stdin_write (f : frame).

(** The outcome of one turn: the loop goes on with the instance and
    the local [next_frame_time], or it is left (condition false, or an
    exception caught by the handlers below the loop). *)
Inductive turn : Type :=
| Goes_on (self : t) (next_frame_time : Q) (done : list action)
| Leaves (self : t) (done : list action).

(** [frame_time = 1.0 / self.fps] *)
Definition frame_time (self : t) : result Q :=
  if (fps self =? 0)%Z then Raise ZeroDivisionError
  else Ok (1 / inject_Z (fps self))%Q.

Definition loop_turn (frame_time : Q) (self : t) (next_frame_time : Q)
           (o : observation) : turn :=
  if negb (running self && poll_is_None o) then Leaves self []
  else if Queue.empty (frame_queue self) then
    Goes_on self next_frame_time [sleep (1 # 1000)]          (* continue *)
  else
    match Queue.get_nowait (frame_queue self) with
    | Raise _ => Leaves self []        (* not reached: the queue is not empty *)
    | Ok (frame, q) =>
        let self1 := set_frame_queue q self in
        let current_time := time_at_get o in
        let wait_time := Py.max 0 (next_frame_time - current_time) in
        let slept := if Qlt_le_dec 0 wait_time then [sleep wait_time] else [] in
        let next_frame_time1 :=
          Py.max (time_at_update o) (next_frame_time + frame_time) in
        if pipe_accepts o
        then Goes_on self1 next_frame_time1 (slept ++ [stdin_write frame])
        else Leaves self1 slept                               (* BrokenPipeError *)
    end.

(** The [while] loop, run against the observations of its successive
    turns: the instance it leaves and what it did, turn by turn. *)
Fixpoint while_loop (frame_time : Q) (self : t) (next_frame_time : Q)
         (obs : list observation) : t * list (list action) :=
  match obs with
  | [] => (self, [])
  | o :: rest =>
      match loop_turn frame_time self next_frame_time o with
      | Goes_on self1 nft done =>
          let '(self2, log) := while_loop frame_time self1 nft rest in
          (self2, done :: log)
      | Leaves self1 done => (self1, [done])
      end
  end.

(** [_stream_loop]: [new_process] is the ffmpeg process [subprocess.Popen]
    starts, [start_time] the first reading of [time.time()].  The
    [finally] block ends by forgetting the process. *)
Definition _stream_loop (self : t) (new_process : Popen) (start_time : Q)
           (obs : list observation) : result (t * list (list action)) :=
  let self := set_process (Some new_process) self in
  frame_time <- frame_time self ;;
  let next_frame_time := start_time in
  let '(self, log) := while_loop frame_time self next_frame_time obs in
  Ok (set_process None self, log).

End RTMPStreamer.

(* ------------------------------------------------------------------ *)
(** ** The numpy arrays and operations the processor uses

    An array is its shape together with the function from indices to
    elements; only the elements at indices inside the shape matter.  All
    shape errors of numpy are [ValueError]. *)
(* ------------------------------------------------------------------ *)
Module np.
Import Py PrimFloat.
Local Open Scope Z_scope.
Local Open Scope py_scope.

(** Two-dimensional arrays, shape [(shape0, shape1)]. *)
Record arr2 (A : Type) : Type :=
  mk2 { shape0 : Z; shape1 : Z; item : Z -> Z -> A }.
Arguments mk2 {A} shape0 shape1 item.
Arguments shape0 {A} _.
Arguments shape1 {A} _.
Arguments item {A} _ _ _.

(** Three-dimensional arrays (rows, columns, channels). *)
Record arr3 (A : Type) : Type :=
  mk3 { dim0 : Z; dim1 : Z; dim2 : Z; item3 : Z -> Z -> Z -> A }.
Arguments mk3 {A} dim0 dim1 dim2 item3.
Arguments dim0 {A} _.
Arguments dim1 {A} _.
Arguments dim2 {A} _.
Arguments item3 {A} _ _ _ _.

(** [np.zeros((h, w))] *)
Definition zeros {A} (zero : A) (h w : Z) : result (arr2 A) :=
  if (h <? 0) || (w <? 0) then Raise ValueError
  else Ok (mk2 h w (fun _ _ => zero)).

(** [a[y, x] = v] with non-negative or negative (wrapping) indices. *)
Definition wrap_index (n i : Z) : result Z :=
  let j := if i <? 0 then i + n else i in
  if (0 <=? j) && (j <? n) then Ok j else Raise IndexError.

Definition setitem {A} (a : arr2 A) (y x : Z) (v : A) : result (arr2 A) :=
  y' <- wrap_index (shape0 a) y ;;
  x' <- wrap_index (shape1 a) x ;;
  Ok (mk2 (shape0 a) (shape1 a)
          (fun r c => if (r =? y') && (c =? x') then v else item a r c)).

(** [a[:, i] = v]: the scalar fills column [i]. *)
Definition setcolumn {A} (a : arr2 A) (i : Z) (v : A) : result (arr2 A) :=
  i' <- wrap_index (shape1 a) i ;;
  Ok (mk2 (shape0 a) (shape1 a)
          (fun r c => if c =? i' then v else item a r c)).

(** [np.expand_dims(a, axis=2)] *)
Definition expand_dims {A} (a : arr2 A) : arr3 A :=
  mk3 (shape0 a) (shape1 a) 1 (fun r c _ => item a r c).

(** [np.repeat(a, n, axis=2)]: every element [n] times in a row. *)
Definition repeat {A} (a : arr3 A) (n : Z) : arr3 A :=
  mk3 (dim0 a) (dim1 a) (dim2 a * n) (fun r c k => item3 a r c (k / n)).

(** The bounds [start:stop] denotes on an axis of length [n]
    ([None] stands for an omitted bound). *)
Definition clamp (n i : Z) : Z :=
  if i <? 0 then Z.max (i + n) 0 else Z.min i n.

Definition slice_bounds (n : Z) (start stop : option Z) : Z * Z :=
  let lo := match start with Some s => clamp n s | None => 0 end in
  let hi := match stop with Some s => clamp n s | None => n end in
  (lo, Z.max (hi - lo) 0).               (* first index, length *)

(** [a[:, start:stop]] *)
Definition columns {A} (a : arr3 A) (start stop : option Z) : arr3 A :=
  let '(lo, len) := slice_bounds (dim1 a) start stop in
  mk3 (dim0 a) len (dim2 a) (fun r c k => item3 a r (lo + c) k).

(** Broadcasting of two lengths of one axis. *)
Definition broadcast_dim (m n : Z) : result Z :=
  if m =? n then Ok m
  else if m =? 1 then Ok n
  else if n =? 1 then Ok m
  else Raise ValueError.

Definition stretch (n i : Z) : Z := if n =? 1 then 0 else i.

(** An elementwise binary operation [a (op) b]. *)
Definition map2 {A B C} (op : A -> B -> C) (a : arr3 A) (b : arr3 B)
  : result (arr3 C) :=
  d0 <- broadcast_dim (dim0 a) (dim0 b) ;;
  d1 <- broadcast_dim (dim1 a) (dim1 b) ;;
  d2 <- broadcast_dim (dim2 a) (dim2 b) ;;
  Ok (mk3 d0 d1 d2
          (fun r c k =>
             op (item3 a (stretch (dim0 a) r) (stretch (dim1 a) c)
                       (stretch (dim2 a) k))
                (item3 b (stretch (dim0 b) r) (stretch (dim1 b) c)
                       (stretch (dim2 b) k)))).

(** [scalar (op) a] *)
Definition map1 {A B} (f : A -> B) (a : arr3 A) : arr3 B :=
  mk3 (dim0 a) (dim1 a) (dim2 a) (fun r c k => f (item3 a r c k)).

(** [np.concatenate((a, b), axis=1)] *)
Definition concatenate1 {A} (a b : arr3 A) : result (arr3 A) :=
  if (dim0 a =? dim0 b) && (dim2 a =? dim2 b)
  then Ok (mk3 (dim0 a) (dim1 a + dim1 b) (dim2 a)
               (fun r c k => if c <? dim1 a then item3 a r c k
                             else item3 b r (c - dim1 a) k))
  else Raise ValueError.

(** Whether a source axis of length [s] can be assigned to a target
    axis of length [t]. *)
Definition fits (s t : Z) : bool := (s =? t) || (s =? 1).

(** [a[:, start:stop] = src], the elements converted by [cast] to the
    element type of [a]. *)
Definition setcolumns {A B} (cast : B -> A) (a : arr3 A)
           (start stop : option Z) (src : arr3 B) : result (arr3 A) :=
  let '(lo, len) := slice_bounds (dim1 a) start stop in
  if fits (dim0 src) (dim0 a) && fits (dim1 src) len && fits (dim2 src) (dim2 a)
  then Ok (mk3 (dim0 a) (dim1 a) (dim2 a)
               (fun r c k =>
                  if (lo <=? c) && (c <? lo + len)
                  then cast (item3 src (stretch (dim0 src) r)
                                       (stretch (dim1 src) (c - lo))
                                       (stretch (dim2 src) k))
                  else item3 a r c k))
  else Raise ValueError.

(** The conversion of a float to [uint8] when it is stored in an
    8-bit image: the fraction is dropped and the integer reduced
    modulo 256. *)
Definition uint8 (q : Q) : Q :=
  inject_Z (Z.quot (Qnum q) (Zpos (Qden q)) mod 256).

(** [np.zeros((h, w, c))] *)
Definition zeros3 {A} (zero : A) (h w c : Z) : result (arr3 A) :=
  if (h <? 0) || (w <? 0) || (c <? 0) then Raise ValueError
  else Ok (mk3 h w c (fun _ _ _ => zero)).

(** *** binary64 and float32

    [np.pi], the functions numpy takes from the C library, which are
    parameters of the development, and the conversion of a binary64
    number to float32 when it is stored in a [float32] array: the
    nearest float32 number, a tie going to the even one, read back as
    the binary64 number of the same value. *)
Definition pi : PrimFloat.float := 0x1.921fb54442d18p+1%float.

Record libm : Type := mklibm {
  cos : PrimFloat.float -> PrimFloat.float;
  sin : PrimFloat.float -> PrimFloat.float;
  arccos : PrimFloat.float -> PrimFloat.float;
  arctan2 : PrimFloat.float -> PrimFloat.float -> PrimFloat.float
}.

Definition float32 (x : PrimFloat.float) : PrimFloat.float :=
  match FloatOps.Prim2SF x with
  | SpecFloat.S754_finite s m e =>
      FloatOps.SF2Prim
        (SpecFloat.binary_normalize 24 128 (if s then Zneg m else Zpos m) e s)
  | _ => x
  end.

(** *** Rationals as floating-point values

    A [float64] scalar as a rational: a number or, since numpy divides
    by zero without raising, an infinity or NaN. *)
Inductive float : Type :=
| num (q : Q)
| inf (negative : bool)
| nan.

(** [a / b] on numpy scalars. *)
Definition truediv (a b : Q) : float :=
  if Qeq_bool b 0
  then if Qeq_bool a 0 then nan else inf (negb (Qle_bool 0 a))
  else num (a / b).

(** [np.round]: the nearest whole number, a half going to the even
    one; infinities and NaN stay. *)
Definition round_half_even (q : Q) : Z :=
  let f := Qfloor q in
  match (q - inject_Z f ?= 1 # 2)%Q with
  | Lt => f
  | Gt => f + 1
  | Eq => if Z.even f then f else f + 1
  end.

Definition round (x : float) : float :=
  match x with
  | num q => num (inject_Z (round_half_even q))
  | _ => x
  end.

(** The whole part of the binary logarithm of [n / d]. *)
Definition ilog2 (n d : positive) : Z :=
  let k := Z.log2 (Zpos n) - Z.log2 (Zpos d) in
  if Qle_bool (2 ^ k) (Zpos n # d) then k else k - 1.

(** Rounding to the nearest floating-point number of [prec] bits with
    least exponent [emin], a tie going to the even one: what every
    arithmetic operation of the format does to its exact result.  (No
    number here reaches the largest one of its format.) *)
Definition rnd_pos (prec emin : Z) (n d : positive) : Q :=
  let e := Z.max (ilog2 n d - (prec - 1)) emin in
  (inject_Z (round_half_even ((Zpos n # d) / 2 ^ e)) * 2 ^ e)%Q.

Definition rnd (prec emin : Z) (q : Q) : Q :=
  match Qnum q with
  | Z0 => 0%Q
  | Zpos n => rnd_pos prec emin n (Qden q)
  | Zneg n => (- rnd_pos prec emin n (Qden q))%Q
  end.

Definition f32 : Q -> Q := rnd 24 (-149).
Definition f64 : Q -> Q := rnd 53 (-1074).

(** [a / b] on [float32] values. *)
Definition truediv32 (a b : Q) : float :=
  if Qeq_bool b 0
  then if Qeq_bool a 0 then nan else inf (negb (Qle_bool 0 a))
  else num (f32 (a / b)).

(** [a.cumsum()] on a [float32] array: the running sum, rounded at
    every addition. *)
Fixpoint cumsum_from (acc : Q) (a : list Q) : list Q :=
  match a with
  | [] => []
  | x :: rest => let s := f32 (acc + x) in s :: cumsum_from s rest
  end.

Definition cumsum (a : list Q) : list Q :=
  match a with
  | [] => []
  | x :: rest => x :: cumsum_from x rest
  end.

(** The order numpy searches by: NaN comes after every number. *)
Definition below (e : float) (x : Q) : bool :=
  match e with
  | num q => negb (Qle_bool x q)
  | inf negative => negative
  | nan => false
  end.

(** [np.searchsorted(a, x)] on an array in ascending order, as a
    cumulative histogram is: the first position whose element is not
    below [x]. *)
Fixpoint searchsorted (a : list float) (x : Q) : Z :=
  match a with
  | [] => 0
  | e :: rest => if below e x then 1 + searchsorted rest x else 0
  end.

End np.

(* ------------------------------------------------------------------ *)
(** ** insta360_processor.py                                           *)
(* ------------------------------------------------------------------ *)
Module Insta360Processor.
Import Py PrimFloat.
Local Open Scope py_scope.

(** *** Calibration: [fisheye_params], a dictionary with the keys
    ['left'] and ['right'], each a dictionary of four floats. *)
Record lens : Type := mklens {
  cx : PrimFloat.float;
  cy : PrimFloat.float;
  radius : PrimFloat.float;
  offset_angle : PrimFloat.float
}.

Record fisheye : Type := mkfisheye { left : lens; right : lens }.

(** The literals [0.0], [0.5], [0.48] and [1.0] of [__init__];
    [0x1.eb851eb851eb8p-2] is the binary64 number [0.48] denotes. *)
Definition default_fisheye_params : fisheye :=
  mkfisheye (mklens 0 0.5 0x1.eb851eb851eb8p-2 0)%float
            (mklens 1 0.5 0x1.eb851eb851eb8p-2 0)%float.

(** An image: rows, columns and channels of 8-bit values. *)
Definition image : Type := np.arr3 Q.

Record Thread : Type := mkthread { tid : nat }.
Record VideoCapture : Type := mkcap { device : Z }.

Record t : Type := mk {
  camera_index : Z;
  output_width : Z;
  output_height : Z;
  cap : option VideoCapture;
  running : bool;
  frame : option image;
  processed_frame : option image;
  fisheye_params : fisheye;
  map_x : option (np.arr2 PrimFloat.float);
  map_y : option (np.arr2 PrimFloat.float);
  use_brightness_equalization : bool;
  use_color_balance : bool;
  overlap_width : Z;
  thread : attr Thread
}.

(** [__init__(camera_index=0, output_width=3840, output_height=1920)];
    [loaded] is what [_load_fisheye_params] read from
    [fisheye_params.json], if anything.  No assignment to
    [self.thread] is made here. *)
Definition __init__ (camera_index output_width output_height : Z)
           (loaded : option fisheye) : t :=
  mk camera_index output_width output_height
     None false None None
     (match loaded with Some p => p | None => default_fisheye_params end)
     None None
     true true
     (Z.quot output_width 10)            (* int(output_width * 0.1) *)
     Unset.

Definition set_maps (mx my : option (np.arr2 PrimFloat.float)) (self : t) : t :=
  mk (camera_index self) (output_width self) (output_height self)
     (cap self) (running self) (frame self) (processed_frame self)
     (fisheye_params self) mx my
     (use_brightness_equalization self) (use_color_balance self)
     (overlap_width self) (thread self).

Definition set_running (b : bool) (self : t) : t :=
  mk (camera_index self) (output_width self) (output_height self)
     (cap self) b (frame self) (processed_frame self)
     (fisheye_params self) (map_x self) (map_y self)
     (use_brightness_equalization self) (use_color_balance self)
     (overlap_width self) (thread self).

Definition set_cap (c : option VideoCapture) (self : t) : t :=
  mk (camera_index self) (output_width self) (output_height self)
     c (running self) (frame self) (processed_frame self)
     (fisheye_params self) (map_x self) (map_y self)
     (use_brightness_equalization self) (use_color_balance self)
     (overlap_width self) (thread self).

Definition set_thread (th : attr Thread) (self : t) : t :=
  mk (camera_index self) (output_width self) (output_height self)
     (cap self) (running self) (frame self) (processed_frame self)
     (fisheye_params self) (map_x self) (map_y self)
     (use_brightness_equalization self) (use_color_balance self)
     (overlap_width self) th.

(** [set_processing_options(brightness_eq, color_bal, overlap_width)] *)
Definition set_processing_options (brightness_eq color_bal : bool)
           (overlap : option Z) (self : t) : t :=
  mk (camera_index self) (output_width self) (output_height self)
     (cap self) (running self) (frame self) (processed_frame self)
     (fisheye_params self) (map_x self) (map_y self)
     brightness_eq color_bal
     (match overlap with Some w => w | None => overlap_width self end)
     (thread self).

(** *** start and stop *)
Inductive os_call : Type :=
| thread_start (th : Thread)
| thread_join (th : Thread)
| cap_release (c : VideoCapture).

(** [start]: [opened] is the answer of [cap.isOpened()]. *)
Definition start (self : t) (opened : bool) (new_thread : Thread)
  : result (t * list os_call) :=
  if running self then Ok (self, [])
  else
    let self1 := set_cap (Some (mkcap (camera_index self))) self in
    if negb opened then Raise ValueError
    else
      let self2 := set_thread (Assigned new_thread) (set_running true self1) in
      Ok (self2, [thread_start new_thread]).

Definition stop (self : t) : result (t * list os_call) :=
  let self1 := set_running false self in
  th <- getattr (thread self1) ;;          (* self.thread is not None *)
  let joined := [thread_join th] in
  let released :=
    match cap self1 with
    | Some c => [cap_release c]
    | None => []
    end in
  Ok (self1, joined ++ released).

(** *** The projection table *)

Section libm.
Variable m : np.libm.

(** The body of the two nested loops of [_init_mapping_table] for the
    output pixel [(x, y)]; [width] and [height] are those of the
    source frame.  Every operation is the binary64 one, in the order
    in which Python evaluates the expression; an integer operand is
    converted first. *)
Definition map_pixel (self : t) (width height : Z) (y x : Z)
           (maps : np.arr2 PrimFloat.float * np.arr2 PrimFloat.float)
  : result (np.arr2 PrimFloat.float * np.arr2 PrimFloat.float) :=
  let '(map_x, map_y) := maps in
  fx <- float_of_int x ;;
  q <- truediv_int (2 * np.pi * fx)%float (output_width self) ;;
  let theta := (q - np.pi)%float in
  fy <- float_of_int y ;;
  q <- truediv_int (np.pi * fy)%float (output_height self) ;;
  let phi := (q - np.pi / 2)%float in
  let x_3d := (np.cos m phi * np.cos m theta)%float in
  let y_3d := (np.cos m phi * np.sin m theta)%float in
  let z_3d := np.sin m phi in
  let params :=
    if ((- np.pi / 2 <=? theta) && (theta <=? np.pi / 2))%float
    then right (fisheye_params self)
    else left (fisheye_params self) in
  let r := PrimFloat.sqrt (x_3d * x_3d + z_3d * z_3d)%float in
  if (r =? 0)%float then Ok (map_x, map_y)                     (* continue *)
  else
    let theta_fisheye := np.arctan2 m y_3d x_3d in
    let rho_fisheye :=
      (np.arccos m
         (z_3d / PrimFloat.sqrt (x_3d * x_3d + y_3d * y_3d + z_3d * z_3d))
       / np.pi)%float in
    let theta_fisheye := (theta_fisheye + offset_angle params)%float in
    fwidth <- float_of_int width ;;
    let x_fisheye :=
      (cx params * fwidth
       + radius params * fwidth * rho_fisheye * np.cos m theta_fisheye)%float in
    fheight <- float_of_int height ;;
    let y_fisheye :=
      (cy params * fheight
       + radius params * fheight * rho_fisheye * np.sin m theta_fisheye)%float in
    if ((0 <=? x_fisheye) && (x_fisheye <? fwidth)
        && ((0 <=? y_fisheye) && (y_fisheye <? fheight)))%float
    then
      map_x1 <- np.setitem map_x y x (np.float32 x_fisheye) ;;
      map_y1 <- np.setitem map_y y x (np.float32 y_fisheye) ;;
      Ok (map_x1, map_y1)
    else Ok (map_x, map_y).

(** [_init_mapping_table(frame_shape)], [frame_shape[:2]] being
    [(height, width)]; the two tables are [float32] arrays. *)
Definition _init_mapping_table (self : t) (frame_shape : Z * Z)
  : result (np.arr2 PrimFloat.float * np.arr2 PrimFloat.float) :=
  let '(height, width) := frame_shape in
  map_x <- np.zeros 0%float (output_height self) (output_width self) ;;
  map_y <- np.zeros 0%float (output_height self) (output_width self) ;;
  for_each (range (output_height self))
    (fun y =>
       for_each (range (output_width self))
         (fun x => map_pixel self width height y x))
    (map_x, map_y).
End libm.

(** *** The seam blend *)

Definition _blend_seam (self : t) (panorama : image) : result image :=
  let half_width := (output_width self / 2)%Z in
  let left_seam_center := 0%Z in
  let right_seam_center := half_width in
  (* the seam at the left edge *)
  let left_overlap := (overlap_width self / 2)%Z in
  let left_region1 := np.columns panorama (Some (- left_overlap)%Z) None in
  let left_region2 := np.columns panorama None (Some left_overlap) in
  let '(h, w) := (np.dim0 left_region1, np.dim1 left_region1) in
  weight <- np.zeros 0%Q h (left_overlap * 2) ;;
  weight <- for_each (range (left_overlap * 2))
              (fun i weight =>
                 np.setcolumn weight i
                   (inject_Z i / inject_Z (left_overlap * 2))%Q)
              weight ;;
  let weight := np.expand_dims weight in
  let weight := np.repeat weight 3 in
  combined_left <- np.concatenate1 left_region1 left_region2 ;;
  a <- np.map2 Qmult left_region1
         (np.map1 (fun w => 1 - w)%Q
                  (np.columns weight None (Some left_overlap))) ;;
  b <- np.map2 Qmult left_region2
         (np.columns weight (Some left_overlap) None) ;;
  blended_left <- np.map2 Qplus a b ;;
  (* the seam in the middle *)
  let right_overlap := (overlap_width self / 2)%Z in
  let right_seam_start := (right_seam_center - right_overlap)%Z in
  let right_seam_end := (right_seam_center + right_overlap)%Z in
  let right_region1 :=
    np.columns panorama (Some right_seam_start) (Some right_seam_center) in
  let right_region2 :=
    np.columns panorama (Some right_seam_center) (Some right_seam_end) in
  let '(h, w) := (np.dim0 right_region1, np.dim1 right_region1) in
  weight <- np.zeros 0%Q h (right_overlap * 2) ;;
  weight <- for_each (range (right_overlap * 2))
              (fun i weight =>
                 np.setcolumn weight i
                   (inject_Z i / inject_Z (right_overlap * 2))%Q)
              weight ;;
  let weight := np.expand_dims weight in
  let weight := np.repeat weight 3 in
  a <- np.map2 Qmult right_region1
         (np.map1 (fun w => 1 - w)%Q
                  (np.columns weight None (Some right_overlap))) ;;
  b <- np.map2 Qmult right_region2
         (np.columns weight (Some right_overlap) None) ;;
  blended_right <- np.map2 Qplus a b ;;
  (* the blends written back into a copy of the panorama *)
  let result := panorama in
  result <- np.setcolumns np.uint8 result (Some (- left_overlap)%Z) None
              (np.columns blended_left None (Some left_overlap)) ;;
  result <- np.setcolumns np.uint8 result None (Some left_overlap)
              (np.columns blended_left (Some left_overlap) None) ;;
  joined <- np.concatenate1
              (np.columns blended_right None (Some right_overlap))
              (np.columns blended_right (Some right_overlap) None) ;;
  result <- np.setcolumns np.uint8 result
              (Some right_seam_start) (Some right_seam_end) joined ;;
  Ok result.

(** *** process_frame

    [cv2.remap] and the two filters of [advanced_processing] are
    taken as they are; [process_frame] only sequences them. *)
Section process.
Variable m : np.libm.
Variable cv2_remap :
  image -> np.arr2 PrimFloat.float -> np.arr2 PrimFloat.float -> result image.
Variable equalize_brightness : image -> result image.
Variable color_balance : image -> result image.

(** The returned frame ([None] for Python's [None]) and the instance
    after the call. *)
Definition process_frame (self : t) (frame : option image)
  : result (option image * t) :=
  match frame with
  | None => Ok (None, self)
  | Some frame =>
      self1 <- match map_x self, map_y self with
               | Some _, Some _ => Ok self
               | _, _ =>
                   maps <- _init_mapping_table m self
                             (np.dim0 frame, np.dim1 frame) ;;
                   Ok (set_maps (Some (fst maps)) (Some (snd maps)) self)
               end ;;
      match map_x self1, map_y self1 with
      | Some mx, Some my =>
          panorama <- cv2_remap frame mx my ;;
          panorama <- _blend_seam self1 panorama ;;
          panorama <- (if use_brightness_equalization self1
                       then equalize_brightness panorama
                       else Ok panorama) ;;
          panorama <- (if use_color_balance self1
                       then color_balance panorama
                       else Ok panorama) ;;
          Ok (Some panorama, self1)
      | _, _ => Raise cv2_error       (* not reached: both maps are set *)
      end
  end.
End process.

(** *** _capture_loop

    What one turn of the loop gets from [self.cap.read()]: the frame,
    or [None] when [ret] is false. *)
Definition set_latest (f p : option image) (self : t) : t :=
  mk (camera_index self) (output_width self) (output_height self)
     (cap self) (running self) f p
     (fisheye_params self) (map_x self) (map_y self)
     (use_brightness_equalization self) (use_color_balance self)
     (overlap_width self) (thread self).

(** How the loop ends: [self.running] was found false, or an
    exception left [process_frame] and ended the thread (the two slots
    then hold what they held before the call), or the reads listed are
    used up. *)
Inductive capture_end : Type :=
| loop_left (self : t)
| thread_died (e : exn) (frame processed_frame : option image)
| still_reading (self : t).

Section capture.
Variable m : np.libm.
Variable cv2_remap :
  image -> np.arr2 PrimFloat.float -> np.arr2 PrimFloat.float -> result image.
Variable equalize_brightness : image -> result image.
Variable color_balance : image -> result image.

(** The loop against the successive results of [cap.read()]; the
    number returned counts the [time.sleep(0.1)] after failed reads. *)
Fixpoint _capture_loop (self : t) (reads : list (option image))
  : nat * capture_end :=
  match reads with
  | [] => (O, still_reading self)
  | read :: rest =>
      if negb (running self) then (O, loop_left self)
      else
        match read with
        | None =>                               (* not ret: sleep, continue *)
            let '(n, e) := _capture_loop self rest in (S n, e)
        | Some frame0 =>
            match process_frame m cv2_remap equalize_brightness color_balance
                                self (Some frame0) with
            | Raise e => (O, thread_died e (frame self) (processed_frame self))
            | Ok (processed, self1) =>
                _capture_loop (set_latest (Some frame0) processed self1) rest
            end
        end
  end.
End capture.

End Insta360Processor.

(* ------------------------------------------------------------------ *)
(** ** advanced_processing.py: the calibration helpers                 *)
(* ------------------------------------------------------------------ *)
Module advanced_processing.
Import Py.
Local Open Scope py_scope.

Record KeyPoint : Type := mkkp { pt : Q * Q }.
Record DMatch : Type :=
  mkmatch { queryIdx : nat; trainIdx : nat; distance : Q }.

Inductive detector : Type :=
| SIFT_create
| ORB_create (nfeatures : nat)
| AKAZE_create.

Inductive norm : Type := NORM_L2 | NORM_HAMMING.

(** [str.lower()] on ASCII strings. *)
Definition lower_ascii (c : ascii) : ascii :=
  let n := nat_of_ascii c in
  if ((65 <=? n) && (n <=? 90))%nat then ascii_of_nat (n + 32) else c.

Fixpoint lower (s : string) : string :=
  match s with
  | EmptyString => EmptyString
  | String c rest => String (lower_ascii c) (lower rest)
  end.

(** The detector the [if / elif / else] on [method.lower()] picks. *)
Definition select_detector (method : string) : result detector :=
  if String.eqb (lower method) "sift" then Ok SIFT_create
  else if String.eqb (lower method) "orb" then Ok (ORB_create 5000)
  else if String.eqb (lower method) "akaze" then Ok AKAZE_create
  else Raise ValueError.

Definition select_norm (method : string) : norm :=
  if String.eqb (lower method) "sift" || String.eqb (lower method) "akaze"
  then NORM_L2 else NORM_HAMMING.

(** [for m, n in matches: if m.distance < 0.75 * n.distance: ...];
    unpacking an entry that is not a pair raises [ValueError]. *)
Fixpoint lowe_filter (matches : list (list DMatch)) (good : list DMatch)
  : result (list DMatch) :=
  match matches with
  | [] => Ok good
  | [m; n] :: rest =>
      if Qlt_le_dec (distance m) ((75 # 100) * distance n)
      then lowe_filter rest (good ++ [m])
      else lowe_filter rest good
  | _ :: _ => Raise ValueError
  end.

Section cv2.
(** OpenCV's side: images, descriptor matrices and homographies are
    opaque here, and so are the functions that produce them. *)
Variables image descriptors homography : Type.
Variable ndim : image -> nat.                       (* len(img.shape) *)
Variable cvtColor_BGR2GRAY : image -> image.
Variable detectAndCompute :
  detector -> image -> list KeyPoint * option descriptors.
Variable knnMatch :
  norm -> descriptors -> descriptors -> list (list DMatch).
Variable findHomography : list (Q * Q) -> list (Q * Q) -> option homography.

(** [cv2.cvtColor(img, cv2.COLOR_BGR2GRAY) if len(img.shape) == 3 else img] *)
Definition gray (img : image) : image :=
  if (ndim img =? 3)%nat then cvtColor_BGR2GRAY img else img.

(** The result is the triple [(good_matches, kp1, kp2)]. *)
Definition detect_and_match_features (img1 img2 : image) (method : string)
  : result (list DMatch * list KeyPoint * list KeyPoint) :=
  let gray1 := gray img1 in
  let gray2 := gray img2 in
  detector <- select_detector method ;;
  let '(kp1, des1) := detectAndCompute detector gray1 in
  let '(kp2, des2) := detectAndCompute detector gray2 in
  match des1, des2 with
  | Some d1, Some d2 =>
      if (List.length kp1 <? 2)%nat || (List.length kp2 <? 2)%nat
      then Ok ([], [], [])
      else
        let matches := knnMatch (select_norm method) d1 d2 in
        good_matches <- lowe_filter matches [] ;;
        Ok (good_matches, kp1, kp2)
  | _, _ => Ok ([], [], [])
  end.

(** [kp[i].pt] *)
Definition point_at (kp : list KeyPoint) (i : nat) : result (Q * Q) :=
  match nth_error kp i with
  | Some k => Ok (pt k)
  | None => Raise IndexError
  end.

Fixpoint points (kp : list KeyPoint) (idx : list nat) : result (list (Q * Q)) :=
  match idx with
  | [] => Ok []
  | i :: rest =>
      p <- point_at kp i ;;
      ps <- points kp rest ;;
      Ok (p :: ps)
  end.

(** [None] in the result is Python's [None]. *)
Definition find_homography (kp1 kp2 : list KeyPoint)
           (good_matches : list DMatch) : result (option homography) :=
  if (List.length good_matches <? 4)%nat then Ok None
  else
    src_pts <- points kp1 (map queryIdx good_matches) ;;
    dst_pts <- points kp2 (map trainIdx good_matches) ;;
    Ok (findHomography src_pts dst_pts).
End cv2.

(** [optimize_seams(left_img, right_img, overlap_width)]: two 8-bit
    images side by side, their overlapping columns crossfaded.
    [weight] is a [float32] array: the quotient of the two integers,
    a binary64 number, is rounded to float32 when it is stored, and
    the products and sums of the blend are float32 operations.
    [weight[:, :, np.newaxis]] is [np.expand_dims(weight, axis=2)], and
    what is stored in the 8-bit [result] goes through [np.uint8]. *)
Definition optimize_seams (left_img right_img : np.arr3 Q) (overlap_width : Z)
  : result (np.arr3 Q) :=
  let '(h, w) := (np.dim0 left_img, np.dim1 left_img) in
  let left_overlap := np.columns left_img (Some (- overlap_width)%Z) None in
  let right_overlap := np.columns right_img None (Some overlap_width) in
  weight <- np.zeros 0%Q h overlap_width ;;
  weight <- for_each (range overlap_width)
              (fun i weight =>
                 np.setcolumn weight i
                   (np.f32
                      (np.f64 (inject_Z (overlap_width - i)
                               / inject_Z overlap_width)%Q)))
              weight ;;
  a <- np.map2 (fun l w => np.f32 (l * w)%Q) left_overlap
         (np.expand_dims weight) ;;
  b <- np.map2 (fun r w => np.f32 (r * w)%Q) right_overlap
         (np.map1 (fun w => np.f32 (1 - w)%Q) (np.expand_dims weight)) ;;
  blended_overlap <- np.map2 (fun x y => np.f32 (x + y)%Q) a b ;;
  result <- np.zeros3 0%Q h (w * 2 - overlap_width)%Z 3 ;;
  result <- np.setcolumns np.uint8 result None (Some (w - overlap_width)%Z)
              (np.columns left_img None (Some (w - overlap_width)%Z)) ;;
  result <- np.setcolumns np.uint8 result
              (Some (w - overlap_width)%Z) (Some w) blended_overlap ;;
  result <- np.setcolumns np.uint8 result (Some w) None
              (np.columns right_img (Some overlap_width) None) ;;
  Ok result.

(** [color_balance(img)]: each of the three channels is stretched
    between the values at which its cumulative histogram reaches 1% and
    99%.  The three channels go through the same steps, written once
    here for channel [k].  The histogram is a [float32] array, and so
    are its running sum and the fractions of the total; they are
    compared as binary64 numbers with the binary64 numbers [0.01] and
    [0.99]. *)

(** The values of channel [k], row after row. *)
Definition values (img : np.arr3 Z) (k : Z) : list Z :=
  flat_map (fun r => map (fun c => np.item3 img r c k) (range (np.dim1 img)))
           (range (np.dim0 img)).

(** [cv2.calcHist([ch], [0], None, [256], [0, 256])]: the counts,
    converted to [float32]. *)
Definition calcHist (ch : list Z) : list Q :=
  map (fun v => np.f32 (inject_Z (Z.of_nat (count_occ Z.eq_dec ch v))))
      (range 256).

(** [(b_low, b_high)] *)
Definition cut_points (ch : list Z) : Z * Z :=
  let hist := calcHist ch in
  let cdf := np.cumsum hist in
  let cdf_normalized := map (fun c => np.truediv32 c (last cdf 0%Q)) cdf in
  let low_cut := np.f64 (1 # 100) in
  let high_cut := np.f64 (99 # 100) in
  (np.searchsorted cdf_normalized low_cut,
   np.searchsorted cdf_normalized high_cut).

Section casts.
(** What the platform stores when an infinity or NaN is converted to
    [uint8]. *)
Variable cast_invalid : np.float -> Z.

(** The conversion of a float to [uint8] when it is stored in the
    lookup table. *)
Definition to_uint8 (x : np.float) : Z :=
  match x with
  | np.num q => (Z.quot (Qnum q) (Zpos (Qden q)) mod 256)%Z
  | _ => cast_invalid x
  end.

(** What the loop stores in [b_lookup[i]]. *)
Definition lookup_entry (low high i : Z) : Z :=
  if (i <? low)%Z then 0%Z
  else if (high <? i)%Z then 255%Z
  else to_uint8 (np.round (np.truediv (255 * inject_Z (i - low))
                                      (inject_Z (high - low)))).

(** The table after [for i in range(256)]. *)
Definition lookup (low high : Z) : list Z :=
  map (lookup_entry low high) (range 256).

(** [cv2.LUT] at one pixel. *)
Definition LUT (v : Z) (table : list Z) : Z := nth (Z.to_nat v) table 0%Z.

(** [b, g, r = cv2.split(img)] takes an image of exactly three
    channels; of an image without pixels [cv2.split] returns nothing,
    and the unpacking raises as well. *)
Definition color_balance (img : np.arr3 Z) : result (np.arr3 Z) :=
  if ((0 <? np.dim0 img) && (0 <? np.dim1 img) && (np.dim2 img =? 3))%Z
  then
    let table k :=
      let '(low, high) := cut_points (values img k) in lookup low high in
    Ok (np.mk3 (np.dim0 img) (np.dim1 img) 3
               (fun r c k => LUT (np.item3 img r c k) (table k)))
  else Raise ValueError.
End casts.

End advanced_processing.

(* ================================================================== *)
(** * Part II: the notions the properties are stated with, and the
      sample inputs they are tried on                                 *)
(* ================================================================== *)

(** ** For the stream sink *)
Module SinkNotions.
Import Py RTMPStreamer.

(** The last [n] elements of a list. *)
Definition lastn {A} (n : nat) (l : list A) : list A :=
  skipn (List.length l - n) l.

(** The frame [push_frame] enqueues for [f]: [f] itself, or [f]
    resized to the output resolution. *)
Definition enqueued (self : t) (f : frame) : frame :=
  if negb (Z.of_nat (fst (shape f)) =? height self)%Z
     || negb (Z.of_nat (snd (shape f)) =? width self)%Z
  then mkframe (Z.to_nat (height self), Z.to_nat (width self)) (seqno f)
  else f.

(** A frame with at least one row and one column, which [cv2.resize]
    accepts. *)
Definition picture (f : frame) : Prop :=
  fst (shape f) <> 0%nat /\ snd (shape f) <> 0%nat.

Definition streamer3 : t :=
  set_frame_queue (Queue.mk 3 [])
    (set_running true (__init__ "rtmp://127.0.0.1:1935/live" 4 2 30 "4000k")).

Definition five_frames : list frame :=
  [mkframe (2, 4) 1; mkframe (2, 4) 2; mkframe (6, 8) 3;
   mkframe (2, 4) 4; mkframe (2, 4) 5]%nat.

Definition running30 : t :=
  set_frame_queue (Queue.mk 10 [mkframe (2, 4)%nat 1%nat; mkframe (2, 4)%nat 2%nat])
    (set_running true (__init__ "rtmp://127.0.0.1:1935/live" 4 2 30 "4000k")).

End SinkNotions.

(** ** For the seam blend *)
Module BlendNotions.
Import Py Insta360Processor.
Local Open Scope Z_scope.
Local Open Scope py_scope.

(** How two axis lengths [m] and [n] broadcast to [r]. *)
Definition broadcasts (m n r : Z) : Prop :=
  (m = n /\ r = m) \/ (m = 1 /\ r = n) \/ (n = 1 /\ r = m).

(** The two fragments [_blend_seam] contains twice, once per seam: the
    ramp [weight[:, i] = i / (overlap*2)] expanded to three channels, *)
Definition ramp (h overlap : Z) : result (np.arr3 Q) :=
  weight <- np.zeros 0%Q h (overlap * 2) ;;
  weight <- for_each (range (overlap * 2))
              (fun i weight =>
                 np.setcolumn weight i
                   (inject_Z i / inject_Z (overlap * 2))%Q)
              weight ;;
  Ok (np.repeat (np.expand_dims weight) 3).

(** and [region1 * (1 - weight[:, :overlap]) + region2 * weight[:, overlap:]]. *)
Definition crossfade (region1 region2 weight : np.arr3 Q) (overlap : Z)
  : result (np.arr3 Q) :=
  a <- np.map2 Qmult region1
         (np.map1 (fun w => 1 - w)%Q (np.columns weight None (Some overlap))) ;;
  b <- np.map2 Qmult region2 (np.columns weight (Some overlap) None) ;;
  np.map2 Qplus a b.

(** [_blend_seam] read as a sequence of these fragments. *)
Definition blend_seam_in_parts (self : t) (panorama : image) : result image :=
  let half := output_width self / 2 in
  let overlap := overlap_width self / 2 in
  let left_region1 := np.columns panorama (Some (- overlap)) None in
  let left_region2 := np.columns panorama None (Some overlap) in
  weight <- ramp (np.dim0 left_region1) overlap ;;
  combined_left <- np.concatenate1 left_region1 left_region2 ;;
  blended_left <- crossfade left_region1 left_region2 weight overlap ;;
  let right_region1 := np.columns panorama (Some (half - overlap)) (Some half) in
  let right_region2 := np.columns panorama (Some half) (Some (half + overlap)) in
  weight <- ramp (np.dim0 right_region1) overlap ;;
  blended_right <- crossfade right_region1 right_region2 weight overlap ;;
  result <- np.setcolumns np.uint8 panorama (Some (- overlap)) None
              (np.columns blended_left None (Some overlap)) ;;
  result <- np.setcolumns np.uint8 result None (Some overlap)
              (np.columns blended_left (Some overlap) None) ;;
  joined <- np.concatenate1
              (np.columns blended_right None (Some overlap))
              (np.columns blended_right (Some overlap) None) ;;
  result <- np.setcolumns np.uint8 result
              (Some (half - overlap)) (Some (half + overlap)) joined ;;
  Ok result.

(** A panorama of [h] rows and [w] columns, every channel of every
    pixel equal to [c]. *)
Definition uniform (h w : Z) (c : Q) : image :=
  np.mk3 h w 3 (fun _ _ _ => c).

(** The processor as [main] sets it up for an output of 20 x 10 with
    the default overlap of 10 percent (2 columns). *)
Definition processor20 : t :=
  set_processing_options true true (Some 2)
    (__init__ 0 20 10 None).

End BlendNotions.

(** ** For the projection table *)
Module Design.
Import Py Insta360Processor PrimFloat.
Local Open Scope float_scope.

(** The projection in the words of the design, steps 1 to 7 of the
    projection mapper, every quantity being the binary64 number the
    operations of the code give; [project] below puts the steps
    together, and the properties compare [_init_mapping_table] with
    it.  The sizes are converted as integers below [2^63] are. *)
Definition vec : Type := (float * float * float)%type.

(** 1. The angles of the output pixel [(x, y)]. *)
Definition theta (W x : Z) : float :=
  2 * np.pi * int63_float x / int63_float W - np.pi.
Definition phi (H y : Z) : float :=
  np.pi * int63_float y / int63_float H - np.pi / 2.

(** 3. The right lens covers the angles from [-pi/2] to [pi/2], both
    included; the left lens covers the rest. *)
Definition in_right_half (th : float) : bool :=
  (- np.pi / 2 <=? th) && (th <=? np.pi / 2).

Definition lens_for (cal : fisheye) (th : float) : lens :=
  if in_right_half th then right cal else left cal.

(** 4. The singular directions. *)
Definition singular (v : vec) : bool :=
  let '(vx, vy, vz) := v in sqrt (vx * vx + vz * vz) =? 0.

Definition norm (v : vec) : float :=
  let '(vx, vy, vz) := v in sqrt (vx * vx + vy * vy + vz * vz).

(** 7. The source coordinates that lie on the source image. *)
Definition inside (Sw Sh : Z) (p : float * float) : bool :=
  (0 <=? fst p) && (fst p <? int63_float Sw)
  && ((0 <=? snd p) && (snd p <? int63_float Sh)).

Section libm.
Variable m : np.libm.

(** 2. The unit vector. *)
Definition direction (th ph : float) : vec :=
  (np.cos m ph * np.cos m th, np.cos m ph * np.sin m th, np.sin m ph).

(** 5. Azimuth and normalised radial distance on the fisheye image. *)
Definition azimuth (l : lens) (v : vec) : float :=
  let '(vx, vy, vz) := v in np.arctan2 m vy vx + offset_angle l.
Definition radial (v : vec) : float :=
  let '(vx, vy, vz) := v in np.arccos m (vz / norm v) / np.pi.

(** 6. The source pixel. *)
Definition src_x (l : lens) (Sw : Z) (v : vec) : float :=
  cx l * int63_float Sw
  + radius l * int63_float Sw * radial v * np.cos m (azimuth l v).
Definition src_y (l : lens) (Sh : Z) (v : vec) : float :=
  cy l * int63_float Sh
  + radius l * int63_float Sh * radial v * np.sin m (azimuth l v).

(** The outcome of steps 1 to 7 for one output pixel: the source
    pixel, or [None] for a pixel that is left out. *)
Definition project (self : t) (Sw Sh : Z) (y x : Z) : option (float * float) :=
  let v := direction (theta (output_width self) x)
                     (phi (output_height self) y) in
  let l := lens_for (fisheye_params self) (theta (output_width self) x) in
  if singular v then None
  else if inside Sw Sh (src_x l Sw v, src_y l Sh v)
       then Some (src_x l Sw v, src_y l Sh v)
       else None.
End libm.

Definition update (a : np.arr2 float) (y x : Z) (v : float) : np.arr2 float :=
  np.mk2 (np.shape0 a) (np.shape1 a)
         (fun r c => if ((r =? y) && (c =? x))%Z then v else np.item a r c).

Definition entry (maps : np.arr2 float * np.arr2 float) (r c : Z)
  : float * float :=
  (np.item (fst maps) r c, np.item (snd maps) r c).

Definition shaped (H W : Z) (maps : np.arr2 float * np.arr2 float) : Prop :=
  np.shape0 (fst maps) = H /\ np.shape1 (fst maps) = W
  /\ np.shape0 (snd maps) = H /\ np.shape1 (snd maps) = W.

(** What a visit of pixel [(x, y)] leaves in the two [float32]
    tables. *)
Definition stored (p : option (float * float)) (old : float * float)
  : float * float :=
  match p with
  | Some q => (np.float32 (fst q), np.float32 (snd q))
  | None => old
  end.

Definition visited (l : list Z) (i : Z) : bool := existsb (Z.eqb i) l.

(** The sizes the conversion to binary64 is [int63_float] for. *)
Definition fits63 (z : Z) : Prop := (0 <= z < 2 ^ 63)%Z.

(** The C library as far as the pixel straight ahead needs it:
    [cos 0 = 1], [sin 0 = 0], [arctan2(0, 1) = 0] and [arccos 0], the
    binary64 number next to [pi/2]. *)
Definition ahead : np.libm :=
  np.mklibm (fun x => if x =? 0 then 1 else nan)
            (fun x => if x =? 0 then 0 else nan)
            (fun x => if x =? 0 then 0x1.921fb54442d18p+0 else nan)
            (fun y x => if (y =? 0) && (x =? 1) then 0 else nan).


(** A calibration with both lens centres in the middle of the source
    image, the calibration of [__init__] with the right lens moved to
    [cx = 0.7599999999999998] (what 24 subtractions of [0.01] from
    [1.0] give, the step of the calibration keys), and three processors
    with an output of 4 x 2 pixels. *)
Definition centred : fisheye :=
  mkfisheye (mklens 0.5 0.5 0x1.eb851eb851eb8p-2 0)
            (mklens 0.5 0.5 0x1.eb851eb851eb8p-2 0).

Definition tuned : fisheye :=
  mkfisheye (mklens 0 0.5 0x1.eb851eb851eb8p-2 0)
            (mklens 0x1.851eb851eb850p-1 0.5 0x1.eb851eb851eb8p-2 0).

Definition processor_centred : t := __init__ 0 4 2 (Some centred).
Definition processor_tuned : t := __init__ 0 4 2 (Some tuned).

End Design.

(** ** For whole runs of the stream sink *)
Module RunNotions.
Import Py RTMPStreamer.

(** A frame of the resolution the streamer was created with. *)
Definition output_sized (self : t) (f : frame) : Prop :=
  Z.of_nat (fst (shape f)) = height self
  /\ Z.of_nat (snd (shape f)) = width self.

(** The frames written to the encoder among some actions, in order,
    and the time slept in them. *)
Definition writes (acts : list action) : list frame :=
  flat_map (fun a => match a with
                     | stdin_write f => [f]
                     | sleep _ => []
                     end) acts.

Definition slept (acts : list action) : Q :=
  fold_right (fun a s => match a with
                         | sleep d => d + s
                         | stdin_write _ => s
                         end) 0 acts.

(** A turn in which the encoder is alive and takes what it is given. *)
Definition healthy (o : observation) : Prop :=
  poll_is_None o = true /\ pipe_accepts o = true.

End RunNotions.

(** ** For the capture thread *)
Module CaptureNotions.
Import Py Insta360Processor.

(** A stand-in for [cv2.remap] that returns a black image of the size
    of the maps, and one for a filter that returns its input. *)
Definition blank_remap (src : image) (mx my : np.arr2 PrimFloat.float)
  : result image :=
  Ok (np.mk3 (np.shape0 mx) (np.shape1 mx) (np.dim2 src) (fun _ _ _ => 0%Q)).

Definition pass (img : image) : result image := Ok img.

(** A processor with an output of 20 x 10 whose thread is running, and
    a frame of 8 x 4 pixels. *)
Definition capturing : t := set_running true (__init__ 0 20 10 None).

Definition frame8 : image :=
  np.mk3 4 8 3 (fun r c k => inject_Z (r + c + k)).

End CaptureNotions.

(** ** For the offline seam optimiser *)
Module SeamNotions.
Import Py.

(** The value of an 8-bit pixel channel. *)
Definition byte (q : Q) : Prop :=
  exists n : Z, (0 <= n < 256)%Z /\ q = inject_Z n.

(** An image of 8-bit pixels: within its shape every channel is a byte. *)
Definition bytes (img : np.arr3 Q) : Prop :=
  forall r c k,
    (0 <= r < np.dim0 img)%Z -> (0 <= c < np.dim1 img)%Z ->
    (0 <= k < np.dim2 img)%Z -> byte (np.item3 img r c k).

(** Two images of 2 x 4 pixels. *)
Definition left4 : np.arr3 Q := np.mk3 2 4 3 (fun r c k => inject_Z (10 + c)).
Definition right4 : np.arr3 Q := np.mk3 2 4 3 (fun r c k => inject_Z (20 + c)).

End SeamNotions.

(** ** For the colour balance *)
Module ColorNotions.
Import Py.
Local Open Scope Z_scope.

(** The value the stretch between the cut points [low] and [high]
    gives [i], before it is rounded. *)
Definition stretched (low high i : Z) : Q :=
  (255 * inject_Z (i - low) / inject_Z (high - low))%Q.

(** The histogram of a channel whose [n] pixels all have the value
    [v], and what its running sum holds at index [i]: nothing before
    [v], the float32 number [total] from [v] on. *)
Definition spike (v n : Z) : list Q :=
  map (fun i => np.f32 (inject_Z (if i =? v then n else 0))) (range 256).

Definition step (v : Z) (total : Q) (i : Z) (c : Q) : Prop :=
  if i <? v then (c == 0)%Q else (c == total)%Q.

(** A platform on which an infinity or NaN is stored as 0. *)
Definition to_zero (x : np.float) : Z := 0.

(** An image of 1 x 3 pixels with three different values in every
    channel, and an image of 2 x 2 pixels of one colour. *)
Definition bands : np.arr3 Z := np.mk3 1 3 3 (fun r c k => 10 * (c + 1) + k).
Definition flat : np.arr3 Z := np.mk3 2 2 3 (fun r c k => 100 + k).

End ColorNotions.

(* ================================================================== *)
(** * Part III: properties                                             *)
(* ================================================================== *)

(** ** The stream sink *)
Module StreamSink.
Import Py RTMPStreamer.
Import SinkNotions.

Lemma lastn_short {A} (n : nat) (l : list A) :
  (List.length l <= n)%nat -> lastn n l = l.
Proof.
  intros Hle. unfold lastn.
  replace (List.length l - n)%nat with 0%nat by lia. reflexivity.
Qed.

Lemma lastn_length {A} (n : nat) (l : list A) :
  (List.length (lastn n l) <= n)%nat.
Proof. unfold lastn. rewrite length_skipn. lia. Qed.

Lemma lastn_app_lastn {A} (n : nat) (l l2 : list A) :
  lastn n (lastn n l ++ l2) = lastn n (l ++ l2).
Proof.
  unfold lastn.
  rewrite !skipn_app, skipn_skipn, !length_app, !length_skipn.
  f_equal; f_equal; lia.
Qed.

Lemma lastn_map {A B} (g : A -> B) (n : nat) (l : list A) :
  map g (lastn n l) = lastn n (map g l).
Proof. unfold lastn. rewrite skipn_map, length_map. reflexivity. Qed.

Lemma enqueued_seqno self f : seqno (enqueued self f) = seqno f.
Proof. unfold enqueued. destruct (_ || _); reflexivity. Qed.

(** One push on a running streamer whose queue respects its bound. *)
Lemma push_frame_running (self : t) (f : frame) (C : nat) :
  running self = true ->
  (0 < width self)%Z -> (0 < height self)%Z -> picture f ->
  Queue.maxsize (frame_queue self) = Z.of_nat C -> (0 < C)%nat ->
  (List.length (Queue.items (frame_queue self)) <= C)%nat ->
  push_frame self f =
    Ok (true,
        set_frame_queue
          (Queue.mk (Z.of_nat C)
             (lastn C (Queue.items (frame_queue self) ++ [enqueued self f])))
          self).
Proof.
  intros Hrun Hw Hh [Hr Hc] Hmax HC Hlen.
  unfold push_frame, enqueued. rewrite Hrun. cbn [negb].
  assert (Hresize : cv2_resize f (width self, height self)
                    = Ok (mkframe (Z.to_nat (height self), Z.to_nat (width self))
                                  (seqno f))).
  { unfold cv2_resize.
    destruct (Z.leb_spec (width self) 0); [lia |].
    destruct (Z.leb_spec (height self) 0); [lia |].
    destruct (Nat.eqb_spec (fst (shape f)) 0); [contradiction |].
    destruct (Nat.eqb_spec (snd (shape f)) 0); [contradiction |].
    reflexivity. }
  set (f1 := if _ || _ then mkframe _ _ else f).
  assert (Hf1 : (if negb (Z.of_nat (fst (shape f)) =? height self)%Z
                    || negb (Z.of_nat (snd (shape f)) =? width self)%Z
                 then cv2_resize f (width self, height self) else Ok f)
                = Ok f1).
  { subst f1. destruct (_ || _); [exact Hresize | reflexivity]. }
  rewrite Hf1. cbn [bind].
  destruct (frame_queue self) as [m l] eqn:Hq.
  cbn [Queue.maxsize Queue.items] in Hmax, Hlen |- *.
  subst m.
  unfold Queue.full, Queue.put_nowait, Queue.get_nowait, Queue.qsize.
  cbn [Queue.maxsize Queue.items].
  destruct (Z.ltb_spec 0 (Z.of_nat C)); [| lia]. cbn [andb].
  destruct (Z.leb_spec (Z.of_nat C) (Z.of_nat (List.length l))) as [Hfull | Hroom].
  - (* full: the oldest frame is evicted *)
    destruct l as [| x rest]; [cbn in Hfull; lia |].
    cbn [Queue.maxsize Queue.items].
    cbn [List.length] in Hfull, Hlen.
    destruct (Z.ltb_spec 0 (Z.of_nat C)); [| lia]. cbn [andb].
    destruct (Z.leb_spec (Z.of_nat C) (Z.of_nat (List.length rest))); [lia |].
    do 3 f_equal. unfold set_frame_queue. f_equal. f_equal.
    unfold lastn. rewrite length_app. cbn [List.length app].
    replace (S (List.length rest) + 1 - C)%nat with 1%nat by lia.
    reflexivity.
  - cbn [Queue.maxsize Queue.items].
    destruct (Z.ltb_spec 0 (Z.of_nat C)); [| lia]. cbn [andb].
    destruct (Z.leb_spec (Z.of_nat C) (Z.of_nat (List.length l))); [lia |].
    do 3 f_equal. unfold set_frame_queue. f_equal. f_equal.
    symmetry. apply (lastn_short C).
    rewrite length_app. cbn. lia.
Qed.

(** Any number of pushes, from any queue within its bound. *)
Lemma push_frames_running (frames : list frame) :
  forall (self : t) (C : nat),
  running self = true ->
  (0 < width self)%Z -> (0 < height self)%Z -> Forall picture frames ->
  Queue.maxsize (frame_queue self) = Z.of_nat C -> (0 < C)%nat ->
  (List.length (Queue.items (frame_queue self)) <= C)%nat ->
  exists rs,
    push_frames self frames = Ok rs
    /\ List.length rs = List.length frames
    /\ Forall (fun r => fst r = true) rs
    /\ Forall (fun r =>
                 (List.length (Queue.items (frame_queue (snd r))) <= C)%nat) rs
    /\ map seqno (Queue.items (frame_queue (last (map snd rs) self)))
       = lastn C (map seqno (Queue.items (frame_queue self))
                  ++ map seqno frames).
Proof.
  induction frames as [| f rest IH]; intros self C Hrun Hw Hh Hpic Hmax HC Hlen.
  - exists []. cbn. repeat split; try constructor.
    rewrite app_nil_r. symmetry. apply lastn_short.
    rewrite length_map. exact Hlen.
  - inversion Hpic as [| ? ? Hf Hrest]; subst.
    cbn [push_frames].
    rewrite (push_frame_running self f C Hrun Hw Hh Hf Hmax HC Hlen).
    cbn [bind snd].
    set (self1 := set_frame_queue _ self).
    destruct (IH self1 C) as (rs & Hrs & Hn & Htrue & Hbound & Hlast);
      subst self1; cbn; try assumption; try reflexivity.
    { apply lastn_length. }
    rewrite Hrs. cbn [bind].
    eexists. split; [reflexivity |].
    cbn [List.length map fst snd]. repeat split.
    + now rewrite Hn.
    + constructor; [reflexivity | exact Htrue].
    + constructor; [cbn; apply lastn_length | exact Hbound].
    + cbn [Queue.items frame_queue set_frame_queue] in Hlast.
      assert (Hgoal : last (set_frame_queue
                        (Queue.mk (Z.of_nat C)
                           (lastn C (Queue.items (frame_queue self)
                                     ++ [enqueued self f]))) self
                        :: map snd rs) self
                      = last (map snd rs)
                          (set_frame_queue
                             (Queue.mk (Z.of_nat C)
                                (lastn C (Queue.items (frame_queue self)
                                          ++ [enqueued self f]))) self)).
      { destruct (map snd rs) as [| a l]; [reflexivity |].
        cbn [last]. clear. revert a. induction l as [| b l IHl]; intro a;
          [reflexivity |]. cbn [last] in *. apply IHl. }
      rewrite Hgoal, Hlast.
      rewrite lastn_map, lastn_app_lastn, map_app. cbn [map].
      rewrite enqueued_seqno, <- app_assoc. reflexivity.
Qed.

(** C3.  A running streamer with an empty queue of capacity [C] and
    nobody taking frames out receives [N > C] frames: every push
    returns [True], the queue never holds more than [C] frames after
    any push, and at the end it holds the [C] most recent sequence
    numbers, oldest first. *)
Theorem push_frames_keeps_most_recent
        (self : t) (C : nat) (frames : list frame) :
  running self = true ->
  (0 < width self)%Z -> (0 < height self)%Z -> Forall picture frames ->
  frame_queue self = Queue.mk (Z.of_nat C) [] -> (0 < C)%nat ->
  (C < List.length frames)%nat ->
  exists rs,
    push_frames self frames = Ok rs
    /\ List.length rs = List.length frames
    /\ Forall (fun r => fst r = true) rs
    /\ Forall (fun r =>
                 (List.length (Queue.items (frame_queue (snd r))) <= C)%nat) rs
    /\ map seqno (Queue.items (frame_queue (last (map snd rs) self)))
       = skipn (List.length frames - C) (map seqno frames)
    /\ List.length (Queue.items (frame_queue (last (map snd rs) self))) = C.
Proof.
  intros Hrun Hw Hh Hpic Hq HC HN.
  destruct (push_frames_running frames self C) as (rs & Hrs & Hn & Ht & Hb & Hl);
    try assumption.
  - rewrite Hq. reflexivity.
  - rewrite Hq. cbn. lia.
  - rewrite Hq in Hl. cbn [Queue.items map app] in Hl.
    exists rs. repeat split; try assumption.
    + rewrite Hl. unfold lastn. rewrite length_map. reflexivity.
    + rewrite <- (length_map seqno), Hl. unfold lastn.
      rewrite length_skipn, length_map. lia.
Qed.

Lemma push_frames_keeps_most_recent_witness :
  exists rs,
    push_frames streamer3 five_frames = Ok rs
    /\ List.length rs = 5%nat
    /\ Forall (fun r => fst r = true) rs
    /\ Forall (fun r =>
                 (List.length (Queue.items (frame_queue (snd r))) <= 3)%nat) rs
    /\ map seqno (Queue.items (frame_queue (last (map snd rs) streamer3)))
       = [3; 4; 5]%nat
    /\ List.length (Queue.items (frame_queue (last (map snd rs) streamer3)))
       = 3%nat.
Proof.
  apply (push_frames_keeps_most_recent streamer3 3 five_frames).
  - reflexivity.
  - reflexivity.
  - reflexivity.
  - repeat constructor; cbn; discriminate.
  - reflexivity.
  - lia.
  - cbn. lia.
Defined.

(** C7.  [push_frame] on a streamer that is not running returns
    [False] and leaves the instance as it was: no resize, nothing put
    in or taken out of the queue. *)
Theorem push_frame_not_running (self : t) (f : frame) :
  running self = false -> push_frame self f = Ok (false, self).
Proof. intros Hrun. unfold push_frame. rewrite Hrun. reflexivity. Qed.

Lemma push_frame_not_running_witness :
  push_frame (__init__ "rtmp://127.0.0.1:1935/live" 3840 1920 30 "4000k")
             (mkframe (0, 0)%nat 7%nat)
  = Ok (false, __init__ "rtmp://127.0.0.1:1935/live" 3840 1920 30 "4000k").
Proof. apply push_frame_not_running. reflexivity. Defined.

(** *** Pacing *)

Lemma py_max_Qmax (a b : Q) : Py.max a b = Qmax a b.
Proof.
  unfold Py.max, Qmax, GenericMinMax.gmax.
  destruct (Qlt_le_dec a b) as [Hlt | Hle];
    destruct (Qcompare_spec a b) as [Heq | Hlt' | Hgt]; try reflexivity.
  - rewrite Heq in Hlt. exfalso. apply (Qlt_irrefl b Hlt).
  - exfalso. apply (Qlt_irrefl a). apply (Qlt_trans _ b); assumption.
  - exfalso. apply (Qlt_not_le _ _ Hlt' Hle).
Qed.

(** C6.  One turn of the consumer loop, the streamer running and the
    encoder alive.  On an empty queue it sleeps one millisecond and
    goes round again with the deadline and the instance untouched.  On
    a queued frame it takes the oldest frame, sleeps until the deadline
    when that lies ahead (and not at all when it has passed), moves the
    deadline to [max(now, deadline + 1/fps)] and writes the frame. *)
Theorem loop_turn_paces (self : t) (next_frame_time : Q) (o : observation) :
  running self = true -> poll_is_None o = true -> fps self <> 0%Z ->
  let ft := (1 / inject_Z (fps self))%Q in
  frame_time self = Ok ft
  /\ (Queue.items (frame_queue self) = [] ->
      loop_turn ft self next_frame_time o
      = Goes_on self next_frame_time [sleep (1 # 1000)])
  /\ (forall f rest,
        Queue.items (frame_queue self) = f :: rest ->
        pipe_accepts o = true ->
        exists slept,
          loop_turn ft self next_frame_time o
          = Goes_on
              (set_frame_queue
                 (Queue.mk (Queue.maxsize (frame_queue self)) rest) self)
              (Qmax (time_at_update o) (next_frame_time + ft))
              (slept ++ [stdin_write f])
          /\ (time_at_get o < next_frame_time ->
              slept = [sleep (next_frame_time - time_at_get o)])
          /\ (next_frame_time <= time_at_get o -> slept = [])).
Proof.
  intros Hrun Hpoll Hfps ft. repeat split.
  - unfold frame_time. destruct (Z.eqb_spec (fps self) 0); [contradiction |].
    reflexivity.
  - intros Hempty. unfold loop_turn, Queue.empty, Queue.qsize.
    rewrite Hrun, Hpoll, Hempty. reflexivity.
  - intros f rest Hitems Hpipe.
    unfold loop_turn, Queue.empty, Queue.qsize, Queue.get_nowait.
    rewrite Hrun, Hpoll, Hitems, Hpipe. cbn [andb negb List.length].
    destruct (Z.eqb_spec (Z.of_nat (S (List.length rest))) 0); [lia |].
    rewrite py_max_Qmax.
    eexists. split; [reflexivity |]. split.
    + intros Hlate. unfold Py.max.
      assert (H0 : 0 < next_frame_time - time_at_get o).
      { unfold Qminus. rewrite <- (Qplus_opp_r (time_at_get o)).
        apply Qplus_lt_l. exact Hlate. }
      destruct (Qlt_le_dec 0 (next_frame_time - time_at_get o)) as [H | H];
        [| exfalso; apply (Qlt_not_le _ _ H0 H)].
      destruct (Qlt_le_dec 0 (next_frame_time - time_at_get o)) as [H' | H'];
        [reflexivity | exfalso; apply (Qlt_not_le _ _ H0 H')].
    + intros Hpast. unfold Py.max.
      assert (H0 : next_frame_time - time_at_get o <= 0).
      { unfold Qminus. rewrite <- (Qplus_opp_r (time_at_get o)).
        apply Qplus_le_l. exact Hpast. }
      destruct (Qlt_le_dec 0 (next_frame_time - time_at_get o)) as [H | H].
      * exfalso. apply (Qlt_not_le _ _ H H0).
      * destruct (Qlt_le_dec 0 0) as [H' | H']; [| reflexivity].
        exfalso. apply (Qlt_irrefl 0 H').
Qed.

Lemma loop_turn_paces_witness :
  loop_turn (1 / inject_Z 30) running30 (10 # 1) (mkobs true (999 # 100) (10 # 1) true)
  = Goes_on (set_frame_queue (Queue.mk 10 [mkframe (2, 4)%nat 2%nat]) running30)
            (Qmax (10 # 1) ((10 # 1) + 1 / inject_Z 30))
            ([sleep ((10 # 1) - (999 # 100))] ++ [stdin_write (mkframe (2, 4)%nat 1%nat)]).
Proof.
  assert (Hfps : fps running30 <> 0%Z) by discriminate.
  pose proof (loop_turn_paces running30 (10 # 1)
                (mkobs true (999 # 100) (10 # 1) true) eq_refl eq_refl Hfps)
    as (_ & _ & Hfull).
  destruct (Hfull (mkframe (2, 4)%nat 1%nat) [mkframe (2, 4)%nat 2%nat]
                  eq_refl eq_refl)
    as (slept & Hturn & Hlate & _).
  etransitivity; [exact Hturn |].
  rewrite (Hlate eq_refl). reflexivity.
Defined.

(** *** Shutdown of the streamer *)

Lemma drain_empties (q : Queue.t frame) :
  Queue.items (drain (List.length (Queue.items q)) q) = [].
Proof.
  destruct q as [m l]. cbn [Queue.items].
  revert m. induction l as [| x l IH]; intro m; [reflexivity |].
  cbn [List.length drain]. unfold Queue.empty, Queue.qsize, Queue.get_nowait.
  cbn [Queue.items Queue.maxsize List.length].
  destruct (Z.eqb_spec (Z.of_nat (S (List.length l))) 0); [lia |].
  apply IH.
Qed.

(** [stop] never raises, and afterwards the instance is not running,
    holds no process and has an empty queue. *)
Lemma stop_returns (self : t) (wait_expires : bool) :
  exists self' calls,
    stop self wait_expires = Ok (self', calls)
    /\ running self' = false /\ process self' = None
    /\ Queue.items (frame_queue self') = [].
Proof.
  unfold stop.
  destruct (process (set_running false self)) as [p |] eqn:Hp.
  - do 2 eexists. split; [reflexivity |]. cbn. repeat split.
    apply (drain_empties (frame_queue self)).
  - do 2 eexists. split; [reflexivity |]. cbn. repeat split.
    + exact Hp.
    + apply (drain_empties (frame_queue self)).
Qed.

(** [stop] before any [start]: nothing is joined or terminated, and
    the instance is as [__init__] made it. *)
Lemma stop_before_start (url bitrate : string) (w h fps : Z) (e : bool) :
  stop (__init__ url w h fps bitrate) e
  = Ok (__init__ url w h fps bitrate, []).
Proof. reflexivity. Qed.

(** A second [stop] right after a first one: it returns too, leaves
    the instance as the first one left it, and touches no process. *)
Lemma stop_twice (self : t) (e1 e2 : bool) :
  exists self1 calls1,
    stop self e1 = Ok (self1, calls1)
    /\ stop self1 e2
       = Ok (self1, match thread self with
                    | Some th => [thread_join th 1]
                    | None => []
                    end).
Proof.
  destruct self as [u w h f b r [m l] p th].
  assert (Hd : forall m', drain (List.length l) (Queue.mk m' l) = Queue.mk m' []).
  { clear. induction l as [| x l IH]; intro m'; [reflexivity |].
    cbn [List.length drain]. unfold Queue.empty, Queue.qsize, Queue.get_nowait.
    cbn [Queue.items Queue.maxsize List.length].
    destruct (Z.eqb_spec (Z.of_nat (S (List.length l))) 0); [lia |].
    apply IH. }
  unfold stop, set_running, set_process, set_frame_queue.
  destruct p as [p |]; cbn [process thread frame_queue Queue.items rtmp_url
                            width height fps bitrate running];
    rewrite Hd; do 2 eexists; (split; [reflexivity |]);
    cbn [process thread frame_queue Queue.items rtmp_url
         width height fps bitrate running List.length drain];
    destruct th; rewrite ?app_nil_r; reflexivity.
Qed.

End StreamSink.

(** ** The seam blend *)
Module SeamBlend.
Import Py Insta360Processor.
Local Open Scope Z_scope.
Import BlendNotions.

Lemma broadcast_dim_cases (m n : Z) :
  np.broadcast_dim m n = Raise ValueError
  \/ exists r, np.broadcast_dim m n = Ok r /\ broadcasts m n r.
Proof.
  unfold np.broadcast_dim, broadcasts.
  destruct (Z.eqb_spec m n); [right; exists m; auto |].
  destruct (Z.eqb_spec m 1); [right; exists n; auto |].
  destruct (Z.eqb_spec n 1); [right; exists m; auto |].
  left; reflexivity.
Qed.

Lemma map2_cases {A B C} (op : A -> B -> C) (a : np.arr3 A) (b : np.arr3 B) :
  np.map2 op a b = Raise ValueError
  \/ exists c, np.map2 op a b = Ok c
               /\ broadcasts (np.dim0 a) (np.dim0 b) (np.dim0 c)
               /\ broadcasts (np.dim1 a) (np.dim1 b) (np.dim1 c)
               /\ broadcasts (np.dim2 a) (np.dim2 b) (np.dim2 c).
Proof.
  unfold np.map2.
  destruct (broadcast_dim_cases (np.dim0 a) (np.dim0 b)) as [-> | (d0 & -> & H0)];
    [left; reflexivity |].
  destruct (broadcast_dim_cases (np.dim1 a) (np.dim1 b)) as [-> | (d1 & -> & H1)];
    [left; reflexivity |].
  destruct (broadcast_dim_cases (np.dim2 a) (np.dim2 b)) as [-> | (d2 & -> & H2)];
    [left; reflexivity |].
  right. eexists. split; [reflexivity |]. cbn. auto.
Qed.

Lemma concatenate1_cases {A} (a b : np.arr3 A) :
  np.concatenate1 a b = Raise ValueError
  \/ exists c, np.concatenate1 a b = Ok c
               /\ np.dim0 c = np.dim0 a
               /\ np.dim1 c = np.dim1 a + np.dim1 b
               /\ np.dim2 c = np.dim2 a.
Proof.
  unfold np.concatenate1. destruct (_ && _); [right | left; reflexivity].
  eexists. split; [reflexivity |]. cbn. auto.
Qed.

Lemma setcolumns_cases {A B} (cast : B -> A) (a : np.arr3 A)
      (start stop : option Z) (src : np.arr3 B) :
  np.setcolumns cast a start stop src = Raise ValueError
  \/ exists r, np.setcolumns cast a start stop src = Ok r
               /\ (np.dim1 src = snd (np.slice_bounds (np.dim1 a) start stop)
                   \/ np.dim1 src = 1)
               /\ np.dim0 r = np.dim0 a
               /\ np.dim1 r = np.dim1 a
               /\ np.dim2 r = np.dim2 a.
Proof.
  unfold np.setcolumns.
  destruct (np.slice_bounds (np.dim1 a) start stop) as [lo len].
  destruct (np.fits (np.dim0 src) (np.dim0 a)); [| left; reflexivity].
  destruct (np.fits (np.dim1 src) len) eqn:Hfit; [| left; reflexivity].
  destruct (np.fits (np.dim2 src) (np.dim2 a)); [right | left; reflexivity].
  eexists. split; [reflexivity |]. cbn [np.dim0 np.dim1 np.dim2 snd].
  unfold np.fits in Hfit. apply orb_true_iff in Hfit.
  rewrite !Z.eqb_eq in Hfit. auto.
Qed.

(** The loop that fills the ramp never leaves the array. *)
Lemma fill_columns (v : Z -> Q) (l : list Z) :
  forall w : np.arr2 Q,
    Forall (fun i => 0 <= i < np.shape1 w) l ->
    exists w', for_each l (fun i w => np.setcolumn w i (v i)) w = Ok w'
               /\ np.shape0 w' = np.shape0 w /\ np.shape1 w' = np.shape1 w.
Proof.
  induction l as [| i l IH]; intros w Hl.
  - exists w. auto.
  - inversion Hl as [| ? ? Hi Hrest]; subst.
    cbn [for_each]. unfold np.setcolumn at 1, np.wrap_index.
    destruct (Z.ltb_spec i 0); [lia |].
    destruct (Z.leb_spec 0 i); [| lia].
    destruct (Z.ltb_spec i (np.shape1 w)); [| lia].
    cbn [andb bind].
    destruct (IH (np.mk2 (np.shape0 w) (np.shape1 w)
                    (fun r c => if c =? i then v i else np.item w r c)))
      as (w' & Hw' & Hs0 & Hs1); [exact Hrest |].
    exists w'. auto.
Qed.

Lemma range_bounds (n : Z) : Forall (fun i => 0 <= i < n) (range n).
Proof.
  unfold range. apply Forall_forall. intros i Hi.
  apply in_map_iff in Hi. destruct Hi as (k & <- & Hk).
  apply in_seq in Hk. lia.
Qed.

Lemma ramp_cases (h overlap : Z) :
  ramp h overlap = Raise ValueError
  \/ exists w, ramp h overlap = Ok w
               /\ np.dim0 w = h /\ np.dim1 w = overlap * 2 /\ np.dim2 w = 3
               /\ 0 <= overlap.
Proof.
  unfold ramp, np.zeros.
  destruct (Z.ltb_spec h 0); [left; reflexivity |].
  destruct (Z.ltb_spec (overlap * 2) 0); [left; reflexivity |].
  cbn [orb bind].
  destruct (fill_columns (fun i => (inject_Z i / inject_Z (overlap * 2))%Q)
              (range (overlap * 2))
              (np.mk2 h (overlap * 2) (fun _ _ => 0%Q)))
    as (w' & -> & H0' & H1'); [apply range_bounds |].
  right. eexists. split; [reflexivity |]. cbn in *. repeat split; lia.
Qed.

Lemma crossfade_cases (region1 region2 weight : np.arr3 Q) (overlap : Z) :
  0 <= overlap -> np.dim1 weight = overlap * 2 ->
  crossfade region1 region2 weight overlap = Raise ValueError
  \/ exists c, crossfade region1 region2 weight overlap = Ok c
               /\ exists d1 d2,
                    broadcasts (np.dim1 region1) overlap d1
                    /\ broadcasts (np.dim1 region2) overlap d2
                    /\ broadcasts d1 d2 (np.dim1 c).
Proof.
  intros Hov Hw. unfold crossfade.
  destruct (map2_cases Qmult region1
              (np.map1 (fun w => (1 - w)%Q)
                       (np.columns weight None (Some overlap))))
    as [-> | (a & -> & _ & Ha & _)]; [left; reflexivity |].
  cbn [bind].
  destruct (map2_cases Qmult region2 (np.columns weight (Some overlap) None))
    as [-> | (b & -> & _ & Hb & _)]; [left; reflexivity |].
  cbn [bind].
  destruct (map2_cases Qplus a b) as [-> | (c & -> & _ & Hc & _)];
    [left; reflexivity |].
  right. exists c. split; [reflexivity |].
  exists (np.dim1 a), (np.dim1 b).
  unfold np.columns, np.slice_bounds, np.clamp in Ha, Hb.
  rewrite Hw in Ha, Hb.
  destruct (Z.ltb_spec overlap 0); [lia |].
  cbn [np.dim1 np.map1] in Ha, Hb.
  replace (Z.max (Z.min overlap (overlap * 2) - 0) 0) with overlap in Ha by lia.
  replace (Z.max (overlap * 2 - Z.min overlap (overlap * 2)) 0)
    with overlap in Hb by lia.
  auto.
Qed.

(** On a panorama with at least one column [_blend_seam] does not
    return: whatever the configured overlap, one of its array
    operations is refused by numpy. *)
Lemma blend_seam_in_parts_eq (self : t) (panorama : image) :
  _blend_seam self panorama = blend_seam_in_parts self panorama.
Proof.
  unfold _blend_seam, blend_seam_in_parts, ramp, crossfade.
  cbv beta iota zeta.
  repeat match goal with
         | |- context [bind ?m _] =>
             match m with
             | bind _ _ => fail 1
             | _ => destruct m; cbn [bind]; try reflexivity
             end
         end.
Qed.

Lemma blend_seam_raises (self : t) (panorama : image) :
  1 <= np.dim1 panorama -> _blend_seam self panorama = Raise ValueError.
Proof.
  intros HW. rewrite blend_seam_in_parts_eq.
  unfold blend_seam_in_parts. cbv zeta.
  set (lo := overlap_width self / 2).
  set (half := output_width self / 2).
  destruct (ramp_cases
              (np.dim0 (np.columns panorama (Some (- lo)) None)) lo)
    as [-> | (wl & -> & _ & Hwl & _ & Hlo)]; [reflexivity |].
  cbn [bind].
  destruct (concatenate1_cases (np.columns panorama (Some (- lo)) None)
                               (np.columns panorama None (Some lo)))
    as [-> | (cl & -> & _)]; [reflexivity |].
  cbn [bind].
  destruct (crossfade_cases (np.columns panorama (Some (- lo)) None)
                            (np.columns panorama None (Some lo)) wl lo Hlo Hwl)
    as [-> | (bl & -> & d1 & d2 & Hd1 & Hd2 & Hbl)]; [reflexivity |].
  cbn [bind].
  destruct (ramp_cases
              (np.dim0 (np.columns panorama (Some (half - lo)) (Some half))) lo)
    as [-> | (wr & -> & _ & Hwr & _)]; [reflexivity |].
  cbn [bind].
  destruct (crossfade_cases
              (np.columns panorama (Some (half - lo)) (Some half))
              (np.columns panorama (Some half) (Some (half + lo))) wr lo Hlo Hwr)
    as [-> | (br & -> & _)]; [reflexivity |].
  cbn [bind].
  destruct (setcolumns_cases np.uint8 panorama (Some (- lo)) None
              (np.columns bl None (Some lo)))
    as [-> | (r1 & -> & Hfit1 & _ & Hr1 & _)]; [reflexivity |].
  cbn [bind].
  destruct (setcolumns_cases np.uint8 r1 None (Some lo)
              (np.columns bl (Some lo) None))
    as [-> | (r2 & -> & Hfit2 & _)]; [reflexivity |].
  exfalso.
  unfold np.columns, np.slice_bounds, np.clamp, broadcasts in *.
  cbn [np.dim1 snd] in *. rewrite Hr1 in Hfit2.
  destruct (Z.ltb_spec lo 0); [lia |].
  destruct (Z.ltb_spec (- lo) 0); lia.
Qed.

(** What the loop that fills the ramp leaves in every column. *)
Lemma fill_columns_item (v : Z -> Q) (l : list Z) :
  forall (w w' : np.arr2 Q),
    Forall (fun i => 0 <= i < np.shape1 w) l ->
    for_each l (fun i w => np.setcolumn w i (v i)) w = Ok w' ->
    forall r c,
      np.item w' r c = if existsb (Z.eqb c) l then v c else np.item w r c.
Proof.
  induction l as [| i l IH]; intros w w' Hl Hrun r c.
  - cbn in Hrun. injection Hrun as <-. reflexivity.
  - inversion Hl as [| ? ? Hi Hrest]; subst.
    cbn [for_each] in Hrun. unfold np.setcolumn at 1, np.wrap_index in Hrun.
    destruct (Z.ltb_spec i 0); [lia |].
    destruct (Z.leb_spec 0 i); [| lia].
    destruct (Z.ltb_spec i (np.shape1 w)); [| lia].
    cbn [andb bind] in Hrun.
    rewrite (fun H => IH _ w' H Hrun r c) by exact Hrest.
    cbn [existsb np.item].
    destruct (Z.eqb_spec c i) as [-> | Hne];
      destruct (existsb (Z.eqb _) l); reflexivity.
Qed.

Lemma range_has (n c : Z) : 0 <= c < n -> existsb (Z.eqb c) (range n) = true.
Proof.
  intros Hc. apply existsb_exists. exists c. split; [| apply Z.eqb_refl].
  unfold range. apply in_map_iff. exists (Z.to_nat c). split; [lia |].
  apply in_seq. lia.
Qed.

Lemma ramp_item (h overlap : Z) (w : np.arr3 Q) :
  ramp h overlap = Ok w ->
  forall r c k, 0 <= c < overlap * 2 ->
    np.item3 w r c k = (inject_Z c / inject_Z (overlap * 2))%Q.
Proof.
  unfold ramp, np.zeros. intros Hramp r c k Hc.
  destruct (Z.ltb_spec h 0); [discriminate |].
  destruct (Z.ltb_spec (overlap * 2) 0); [discriminate |].
  cbn [orb bind] in Hramp.
  destruct (for_each _ _ _) as [w1 | e] eqn:Hfill; [| discriminate].
  cbn [bind] in Hramp. injection Hramp as <-.
  cbn [np.repeat np.expand_dims np.item3].
  rewrite (fill_columns_item _ _ _ _ (range_bounds _) Hfill r c).
  cbn [np.shape1]. rewrite (range_has _ _ Hc). reflexivity.
Qed.

(** The weights of the two sides of a seam do not add up to one: on
    two regions of one colour [c] the crossfade gives [3/2 * c] in
    every column. *)
Lemma crossfade_uniform_gain (h overlap : Z) (c : Q) (w : np.arr3 Q) :
  1 <= overlap -> ramp h overlap = Ok w ->
  exists b,
    crossfade (np.mk3 h overlap 3 (fun _ _ _ => c))
              (np.mk3 h overlap 3 (fun _ _ _ => c)) w overlap = Ok b
    /\ np.dim1 b = overlap
    /\ forall r j k, 0 <= j < overlap -> (np.item3 b r j k == (3 # 2) * c)%Q.
Proof.
  intros Hov Hramp.
  destruct (ramp_cases h overlap) as [Hr | (w0 & Hw0 & Hd0 & Hd1 & Hd2 & _)];
    [congruence |].
  assert (w0 = w) by congruence. subst w0.
  unfold crossfade, np.map2, np.map1, np.columns, np.slice_bounds, np.clamp.
  rewrite Hd0, Hd1, Hd2. cbn [np.dim0 np.dim1 np.dim2].
  destruct (Z.ltb_spec overlap 0); [lia |].
  replace (Z.max (Z.min overlap (overlap * 2) - 0) 0) with overlap by lia.
  replace (Z.max (overlap * 2 - Z.min overlap (overlap * 2)) 0)
    with overlap by lia.
  unfold np.broadcast_dim. rewrite !Z.eqb_refl. cbn [bind np.dim0 np.dim1 np.dim2].
  rewrite !Z.eqb_refl. cbn [bind].
  eexists. split; [reflexivity |]. split; [reflexivity |].
  intros r j k Hj. cbn [np.item3].
  assert (Hs : np.stretch overlap j = j).
  { unfold np.stretch. destruct (Z.eqb_spec overlap 1); [lia | reflexivity]. }
  rewrite !(ramp_item h overlap w Hramp) by (rewrite ?Hs; lia).
  rewrite !Hs.
  replace (Z.min overlap (overlap * 2) + j)%Z with (overlap + j)%Z by lia.
  rewrite !inject_Z_plus, !inject_Z_mult.
  change (inject_Z 0) with 0%Q. change (inject_Z 2) with 2%Q.
  assert (Hnz : ~ (inject_Z overlap == 0)%Q).
  { intro Hz. change 0%Q with (inject_Z 0) in Hz.
    rewrite inject_Z_injective in Hz. lia. }
  field. exact Hnz.
Qed.

(** C8.  [_blend_seam] is to return an image of the dimensions of its
    input, equal to it outside the two seam windows.  The code returns
    no image at all: for every panorama with at least one column the
    call ends in [ValueError]. *)
Theorem blend_seam_returns_no_image (self : t) (panorama : image) :
  1 <= np.dim1 panorama -> _blend_seam self panorama = Raise ValueError.
Proof. apply blend_seam_raises. Qed.

Lemma blend_seam_returns_no_image_witness :
  _blend_seam processor20
    (np.mk3 10 20 3 (fun r c k => inject_Z (r + c + k))) = Raise ValueError.
Proof. apply blend_seam_returns_no_image. cbn. lia. Defined.

(** C4.  Blending a panorama of one colour is to give that panorama
    back.  The code gives nothing back: for every colour, every size
    with at least one column and every overlap the call ends in
    [ValueError]. *)
Theorem blend_seam_uniform_raises (self : t) (h w : Z) (c : Q) :
  1 <= w -> _blend_seam self (uniform h w c) = Raise ValueError.
Proof. intros Hw. apply blend_seam_raises. exact Hw. Qed.

Lemma blend_seam_uniform_raises_witness :
  _blend_seam processor20 (uniform 10 20 (100 # 1)) = Raise ValueError.
Proof. apply blend_seam_uniform_raises. lia. Defined.


End SeamBlend.

(** ** Processor life cycle *)
Module Lifecycle.
Import Py Insta360Processor.

(** C5.  [stop] before any [start] is to return quietly.  On a
    processor fresh from [__init__] it raises [AttributeError]: the
    attribute [thread] it reads is only created by [start]. *)
Theorem processor_stop_before_start_raises
        (camera_index output_width output_height : Z)
        (loaded : option fisheye) :
  stop (__init__ camera_index output_width output_height loaded)
  = Raise AttributeError.
Proof. reflexivity. Qed.

(** After a successful [start] the same [stop] returns, having joined
    the capture thread and released the device; so does a second one. *)
Lemma processor_stop_after_start (self : t) (th : Thread) :
  running self = false ->
  exists self1 self2 calls,
    start self true th = Ok (self1, [thread_start th])
    /\ stop self1 = Ok (self2, calls)
    /\ running self2 = false
    /\ stop self2 = Ok (self2, calls).
Proof.
  intros Hrun. unfold start. rewrite Hrun. cbn [negb].
  do 3 eexists. split; [reflexivity |].
  split; [reflexivity |]. split; reflexivity.
Qed.

Section process.
Variable m : np.libm.
Variable cv2_remap :
  image -> np.arr2 PrimFloat.float -> np.arr2 PrimFloat.float -> result image.
Variable equalize_brightness : image -> result image.
Variable color_balance : image -> result image.

(** C10.  [process_frame(None)] returns [None] and leaves the
    processor exactly as it was: no table is built, nothing is
    remapped, blended or filtered. *)
Theorem process_frame_None (self : t) :
  process_frame m cv2_remap equalize_brightness color_balance self None
  = Ok (None, self).
Proof. reflexivity. Qed.
End process.


End Lifecycle.

(** ** The projection table *)
Module Projection.
Import Py Insta360Processor PrimFloat.
Import Design.

(** *** The code against the design *)

Lemma setitem_inside (a : np.arr2 float) (y x : Z) (v : float) :
  (0 <= y < np.shape0 a)%Z -> (0 <= x < np.shape1 a)%Z ->
  np.setitem a y x v = Ok (update a y x v).
Proof.
  intros Hy Hx. unfold np.setitem, np.wrap_index.
  destruct (Z.ltb_spec y 0); [lia |].
  destruct (Z.leb_spec 0 y); [| lia].
  destruct (Z.ltb_spec y (np.shape0 a)); [| lia].
  cbn [andb bind].
  destruct (Z.ltb_spec x 0); [lia |].
  destruct (Z.leb_spec 0 x); [| lia].
  destruct (Z.ltb_spec x (np.shape1 a)); [| lia].
  reflexivity.
Qed.

(** The conversion of a size raises nothing. *)
Lemma float_of_int_fits (z : Z) : fits63 z -> float_of_int z = Ok (int63_float z).
Proof.
  unfold fits63, float_of_int. intros Hz.
  destruct (Z.ltb_spec (Z.abs z) (2 ^ 63)); [reflexivity | lia].
Qed.

Lemma truediv_int_fits (a : float) (b : Z) :
  fits63 b -> (0 < b)%Z -> truediv_int a b = Ok (a / int63_float b)%float.
Proof.
  intros Hb Hpos. unfold truediv_int. rewrite (float_of_int_fits b Hb).
  cbn [bind]. destruct (Z.eqb_spec b 0); [lia | reflexivity].
Qed.

Lemma fits63_below (z n : Z) : fits63 n -> (0 <= z < n)%Z -> fits63 z.
Proof. unfold fits63. lia. Qed.

Section libm.
Variable m : np.libm.

(** One turn of the inner loop does what steps 1 to 7 say. *)
Lemma map_pixel_project (self : t) (Sw Sh y x : Z) (mx my : np.arr2 float) :
  fits63 (output_width self) -> fits63 (output_height self) ->
  fits63 Sw -> fits63 Sh ->
  (0 <= y < output_height self)%Z -> (0 <= x < output_width self)%Z ->
  (0 <= y < np.shape0 mx)%Z -> (0 <= x < np.shape1 mx)%Z ->
  (0 <= y < np.shape0 my)%Z -> (0 <= x < np.shape1 my)%Z ->
  map_pixel m self Sw Sh y x (mx, my)
  = Ok match project m self Sw Sh y x with
       | Some (sx, sy) =>
           (update mx y x (np.float32 sx), update my y x (np.float32 sy))
       | None => (mx, my)
       end.
Proof.
  intros HW HH HSw HSh Hy Hx Hy1 Hx1 Hy2 Hx2.
  unfold map_pixel.
  rewrite (float_of_int_fits x (fits63_below _ _ HW Hx)). cbn [bind].
  rewrite (truediv_int_fits _ _ HW) by lia. cbn [bind].
  rewrite (float_of_int_fits y (fits63_below _ _ HH Hy)). cbn [bind].
  rewrite (truediv_int_fits _ _ HH) by lia. cbn [bind].
  unfold project, singular, direction, lens_for, in_right_half, inside,
    src_x, src_y, azimuth, radial, norm, theta, phi.
  cbn [fst snd].
  match goal with |- context [if (sqrt ?a =? 0)%float then _ else _] =>
    destruct (sqrt a =? 0)%float end; [reflexivity |].
  rewrite (float_of_int_fits Sw HSw). cbn [bind].
  rewrite (float_of_int_fits Sh HSh). cbn [bind].
  match goal with |- context [if ?b then bind _ _ else _] => destruct b end;
    [| reflexivity].
  rewrite !setitem_inside by assumption. reflexivity.
Qed.

(** *** The two loops *)

Lemma visited_range (n i : Z) : (0 <= i < n)%Z -> visited (range n) i = true.
Proof.
  intros Hi. apply existsb_exists. exists i. split; [| apply Z.eqb_refl].
  unfold range. apply in_map_iff. exists (Z.to_nat i). split; [lia |].
  apply in_seq. lia.
Qed.

Lemma range_inside (n : Z) : Forall (fun i => (0 <= i < n)%Z) (range n).
Proof.
  unfold range. apply Forall_forall. intros i Hi.
  apply in_map_iff in Hi. destruct Hi as (k & <- & Hk).
  apply in_seq in Hk. lia.
Qed.

Lemma map_pixel_entry (self : t) (Sw Sh y x : Z)
      (maps : np.arr2 float * np.arr2 float) :
  fits63 (output_width self) -> fits63 (output_height self) ->
  fits63 Sw -> fits63 Sh ->
  shaped (output_height self) (output_width self) maps ->
  (0 <= y < output_height self)%Z -> (0 <= x < output_width self)%Z ->
  exists maps1,
    map_pixel m self Sw Sh y x maps = Ok maps1
    /\ shaped (output_height self) (output_width self) maps1
    /\ forall r c,
         entry maps1 r c
         = if ((r =? y) && (c =? x))%Z
           then stored (project m self Sw Sh y x) (entry maps r c)
           else entry maps r c.
Proof.
  destruct maps as [mx my]. intros HW HH HSw HSh (H0 & H1 & H2 & H3) Hy Hx.
  cbn [fst snd] in *.
  rewrite map_pixel_project by (assumption || lia).
  eexists. split; [reflexivity |].
  destruct (project m self Sw Sh y x) as [[sx sy] |].
  - split; [repeat split; assumption |].
    intros r c. unfold entry, update. cbn [fst snd np.item stored].
    destruct ((r =? y) && (c =? x))%Z; reflexivity.
  - split; [repeat split; assumption |].
    intros r c. cbn [stored]. destruct ((r =? y) && (c =? x))%Z; reflexivity.
Qed.

Lemma inner_loop (self : t) (Sw Sh y : Z) (l : list Z) :
  fits63 (output_width self) -> fits63 (output_height self) ->
  fits63 Sw -> fits63 Sh ->
  forall maps,
    shaped (output_height self) (output_width self) maps ->
    (0 <= y < output_height self)%Z ->
    Forall (fun x => (0 <= x < output_width self)%Z) l ->
    exists maps',
      for_each l (fun x => map_pixel m self Sw Sh y x) maps = Ok maps'
      /\ shaped (output_height self) (output_width self) maps'
      /\ forall r c,
           entry maps' r c
           = if (r =? y)%Z && visited l c
             then stored (project m self Sw Sh y c) (entry maps r c)
             else entry maps r c.
Proof.
  intros HW HH HSw HSh.
  induction l as [| x l IH]; intros maps Hs Hy Hl.
  - exists maps. split; [reflexivity |]. split; [exact Hs |].
    intros r c. unfold visited. cbn [existsb]. rewrite andb_false_r. reflexivity.
  - inversion Hl as [| ? ? Hx Hrest]; subst.
    destruct (map_pixel_entry self Sw Sh y x maps HW HH HSw HSh Hs Hy Hx)
      as (maps1 & Hrun1 & Hs1 & He1).
    destruct (IH maps1 Hs1 Hy Hrest) as (maps' & Hrun & Hs' & He).
    exists maps'. cbn [for_each]. rewrite Hrun1. cbn [bind].
    split; [exact Hrun |]. split; [exact Hs' |].
    intros r c. rewrite He, He1. unfold visited. cbn [existsb].
    destruct (Z.eqb_spec r y) as [-> | Hr]; cbn [andb]; [| reflexivity].
    destruct (Z.eqb_spec c x) as [-> | Hc]; cbn [orb].
    + destruct (existsb (Z.eqb x) l); [| reflexivity].
      destruct (project m self Sw Sh y x); reflexivity.
    + reflexivity.
Qed.

Lemma outer_loop (self : t) (Sw Sh : Z) (l : list Z) :
  fits63 (output_width self) -> fits63 (output_height self) ->
  fits63 Sw -> fits63 Sh ->
  forall maps,
    shaped (output_height self) (output_width self) maps ->
    Forall (fun y => (0 <= y < output_height self)%Z) l ->
    exists maps',
      for_each l
        (fun y => for_each (range (output_width self))
                    (fun x => map_pixel m self Sw Sh y x))
        maps = Ok maps'
      /\ shaped (output_height self) (output_width self) maps'
      /\ forall r c,
           entry maps' r c
           = if visited l r && visited (range (output_width self)) c
             then stored (project m self Sw Sh r c) (entry maps r c)
             else entry maps r c.
Proof.
  intros HW HH HSw HSh.
  induction l as [| y l IH]; intros maps Hs Hl.
  - exists maps. split; [reflexivity |]. split; [exact Hs |]. reflexivity.
  - inversion Hl as [| ? ? Hy Hrest]; subst.
    destruct (inner_loop self Sw Sh y (range (output_width self))
                HW HH HSw HSh maps Hs Hy (range_inside _))
      as (maps1 & Hrun1 & Hs1 & He1).
    destruct (IH maps1 Hs1 Hrest) as (maps' & Hrun & Hs' & He).
    exists maps'. cbn [for_each]. rewrite Hrun1. cbn [bind].
    split; [exact Hrun |]. split; [exact Hs' |].
    intros r c. rewrite He, He1. unfold visited. cbn [existsb].
    destruct (Z.eqb_spec r y) as [-> | Hr];
      destruct (existsb (Z.eqb _) l);
      destruct (existsb (Z.eqb c) (range (output_width self)));
      cbn [andb orb]; try reflexivity.
    destruct (project m self Sw Sh y c); reflexivity.
Qed.

(** The table [_init_mapping_table] returns: it holds, for every output
    pixel, the source pixel of steps 1 to 7 rounded to float32 when
    there is one, and the zeros it was created with when there is
    none. *)
Lemma init_mapping_table_entries (self : t) (Sh Sw : Z) :
  fits63 (output_width self) -> fits63 (output_height self) ->
  fits63 Sw -> fits63 Sh ->
  exists map_x map_y,
    _init_mapping_table m self (Sh, Sw) = Ok (map_x, map_y)
    /\ shaped (output_height self) (output_width self) (map_x, map_y)
    /\ forall y x,
         (0 <= y < output_height self)%Z -> (0 <= x < output_width self)%Z ->
         (np.item map_x y x, np.item map_y y x)
         = stored (project m self Sw Sh y x) (0, 0)%float.
Proof.
  intros HW HH HSw HSh. unfold _init_mapping_table, np.zeros.
  destruct (Z.ltb_spec (output_height self) 0); [unfold fits63 in HH; lia |].
  destruct (Z.ltb_spec (output_width self) 0); [unfold fits63 in HW; lia |].
  cbn [orb bind].
  destruct (outer_loop self Sw Sh (range (output_height self)) HW HH HSw HSh
              (np.mk2 (output_height self) (output_width self)
                      (fun _ _ => 0%float),
               np.mk2 (output_height self) (output_width self)
                      (fun _ _ => 0%float)))
    as ([mx my] & Hrun & Hs & He).
  { repeat split. }
  { apply range_inside. }
  exists mx, my. split; [exact Hrun |]. split; [exact Hs |].
  intros y x Hy Hx. specialize (He y x).
  rewrite (visited_range _ _ Hy), (visited_range _ _ Hx) in He.
  exact He.
Qed.

Lemma lens_for_chosen (cal : fisheye) (th : float) (l : lens) :
  (in_right_half th = true -> l = right cal) ->
  (in_right_half th = false -> l = left cal) ->
  lens_for cal th = l.
Proof.
  intros Hr Hl. unfold lens_for.
  destruct (in_right_half th); symmetry; auto.
Qed.

Lemma project_mapped (self : t) (Sw Sh y x : Z) (l : lens) :
  let th := theta (output_width self) x in
  let v := direction m th (phi (output_height self) y) in
  lens_for (fisheye_params self) th = l ->
  singular v = false ->
  inside Sw Sh (src_x m l Sw v, src_y m l Sh v) = true ->
  project m self Sw Sh y x = Some (src_x m l Sw v, src_y m l Sh v).
Proof.
  intros th v Hl Hns Hin. unfold project. fold th. fold v.
  rewrite Hl, Hns, Hin. reflexivity.
Qed.


(** C1, amended.  Every quantity being the binary64 number the code
    computes: for an output pixel [(x, y)] for which the test
    [r == 0] fails and whose source coordinate passes the test of lying
    on the source image, the table holds [src_x] and [src_y] of the
    design rounded to float32, computed with the right lens if and only
    if [-pi/2 <= theta <= pi/2] holds of the computed [theta]. *)
Theorem mapping_table_stores_source_pixel
        (self : t) (Sh Sw x y : Z) (l : lens) :
  (0 <= x < output_width self)%Z -> (0 <= y < output_height self)%Z ->
  fits63 (output_width self) -> fits63 (output_height self) ->
  fits63 Sw -> fits63 Sh ->
  let th := theta (output_width self) x in
  let v := direction m th (phi (output_height self) y) in
  (in_right_half th = true -> l = right (fisheye_params self)) ->
  (in_right_half th = false -> l = left (fisheye_params self)) ->
  singular v = false ->
  inside Sw Sh (src_x m l Sw v, src_y m l Sh v) = true ->
  exists map_x map_y,
    _init_mapping_table m self (Sh, Sw) = Ok (map_x, map_y)
    /\ np.item map_x y x = np.float32 (src_x m l Sw v)
    /\ np.item map_y y x = np.float32 (src_y m l Sh v).
Proof.
  intros Hx Hy HW HH HSw HSh th v Hr Hl Hns Hin.
  destruct (init_mapping_table_entries self Sh Sw HW HH HSw HSh)
    as (mx & my & Hrun & _ & He).
  exists mx, my. split; [exact Hrun |].
  specialize (He y x Hy Hx).
  rewrite (project_mapped self Sw Sh y x l) in He.
  - cbn [stored fst snd] in He. injection He as Hex Hey. split; assumption.
  - apply lens_for_chosen; assumption.
  - exact Hns.
  - exact Hin.
Qed.

End libm.

Lemma fits63_sample (z : Z) : ((0 <=? z) && (z <? 2 ^ 63))%Z = true -> fits63 z.
Proof.
  intros Hz. apply andb_true_iff in Hz. destruct Hz as [H0 H1].
  apply Z.leb_le in H0. apply Z.ltb_lt in H1. split; assumption.
Qed.

Lemma mapping_table_stores_source_pixel_witness :
  exists map_x map_y,
    _init_mapping_table ahead processor_centred (100, 100)%Z = Ok (map_x, map_y)
    /\ np.item map_x 1 2 = 74%float
    /\ np.item map_y 1 2 = 50%float.
Proof.
  apply (mapping_table_stores_source_pixel ahead processor_centred 100 100 2 1
           (right centred));
    [ cbn; lia | cbn; lia
    | apply fits63_sample; reflexivity | apply fits63_sample; reflexivity
    | apply fits63_sample; reflexivity | apply fits63_sample; reflexivity
    | intros _; reflexivity
    | intros Hout; vm_compute in Hout; discriminate
    | vm_compute; reflexivity
    | vm_compute; reflexivity ].
Defined.

(** C1, as stated: the table holds exactly the source coordinate, and
    a column where [theta] is [-pi/2] goes to the right lens.  Both
    fail.  With the right lens at [cx = 0.7599999999999998], the pixel
    straight ahead of a 4 x 2 table has the source coordinate
    [1919.9999999999995] on a source image of 1920 x 960, and the table
    holds [1920.0], which is its float32 rounding and no coordinate of
    the source image.  And in column 960 of a table 3840 columns wide,
    a quarter of its width, the computed [theta] lies below [-pi/2]:
    the test for the right lens fails and the left lens is used. *)
Lemma rounded_entry_and_tie_column :
  (exists map_x map_y,
      _init_mapping_table ahead processor_tuned (960, 1920)%Z = Ok (map_x, map_y)
      /\ project ahead processor_tuned 1920 960 1 2
         = Some (0x1.dfffffffffffep+10, 480)%float
      /\ np.item map_x 1 2 = 1920%float
      /\ inside 1920 960 (np.item map_x 1 2, np.item map_y 1 2) = false)
  /\ (4 * 960 = 3840)%Z
  /\ (theta 3840 960 <? - np.pi / 2)%float = true
  /\ in_right_half (theta 3840 960) = false
  /\ lens_for default_fisheye_params (theta 3840 960)
     = left default_fisheye_params.
Proof.
  split.
  - destruct (init_mapping_table_entries ahead processor_tuned 960 1920)
      as (mx & my & Hrun & _ & He); try (apply fits63_sample; reflexivity).
    exists mx, my. split; [exact Hrun |].
    assert (Hp : project ahead processor_tuned 1920 960 1 2
                 = Some (0x1.dfffffffffffep+10, 480)%float)
      by (vm_compute; reflexivity).
    split; [exact Hp |].
    specialize (He 1%Z 2%Z ltac:(cbn; lia) ltac:(cbn; lia)).
    rewrite Hp in He. cbn [stored fst snd] in He.
    injection He as Hex Hey. rewrite Hex, Hey.
    split; vm_compute; reflexivity.
  - repeat split; vm_compute; reflexivity.
Qed.



End Projection.

(** ** The calibration helpers *)
Module Calibration.
Import Py advanced_processing.

Section cv2.
Variables image descriptors homography : Type.
Variable ndim : image -> nat.
Variable cvtColor_BGR2GRAY : image -> image.
Variable detectAndCompute :
  detector -> image -> list KeyPoint * option descriptors.
Variable knnMatch :
  norm -> descriptors -> descriptors -> list (list DMatch).
Variable findHomography : list (Q * Q) -> list (Q * Q) -> option homography.

(** C9.  On too little input the calibration helpers answer with an
    explicit empty result and do not raise: [find_homography]
    returns [None] on fewer than 4 matches, and
    [detect_and_match_features] returns three empty lists when the
    detector finds no descriptors, or fewer than 2 keypoints, in one
    of the two images. *)
Theorem calibration_helpers_no_result :
  (forall kp1 kp2 good_matches,
      (List.length good_matches < 4)%nat ->
      find_homography homography findHomography kp1 kp2 good_matches
      = Ok None)
  /\ (forall img1 img2 method d kp1 des1 kp2 des2,
        select_detector method = Ok d ->
        detectAndCompute d (gray image ndim cvtColor_BGR2GRAY img1) = (kp1, des1) ->
        detectAndCompute d (gray image ndim cvtColor_BGR2GRAY img2) = (kp2, des2) ->
        des1 = None \/ des2 = None
        \/ (List.length kp1 < 2)%nat \/ (List.length kp2 < 2)%nat ->
        detect_and_match_features image descriptors ndim cvtColor_BGR2GRAY
          detectAndCompute knnMatch img1 img2 method
        = Ok ([], [], [])).
Proof.
  split.
  - intros kp1 kp2 gm Hlen. unfold find_homography.
    destruct (Nat.ltb_spec (List.length gm) 4); [reflexivity | lia].
  - intros img1 img2 method d kp1 des1 kp2 des2 Hd H1 H2 Hfew.
    unfold detect_and_match_features. rewrite Hd. cbn [bind].
    rewrite H1, H2.
    destruct des1 as [d1 |]; [| reflexivity].
    destruct des2 as [d2 |]; [| reflexivity].
    destruct Hfew as [Hn | [Hn | [Hk | Hk]]]; try discriminate.
    + destruct (Nat.ltb_spec (List.length kp1) 2); [reflexivity | lia].
    + destruct (Nat.ltb_spec (List.length kp2) 2); [| lia].
      rewrite orb_true_r. reflexivity.
Qed.
End cv2.

(** A detector that finds one keypoint and no descriptors in any
    image, and three matches handed to [find_homography]. *)
Lemma calibration_helpers_no_result_witness :
  find_homography nat (fun _ _ => Some 0%nat) [] []
    [mkmatch 0 0 1; mkmatch 1 1 1; mkmatch 2 2 1] = Ok None
  /\ detect_and_match_features nat nat (fun _ => 3%nat) (fun img => img)
       (fun _ _ => ([mkkp (0, 0)], None)) (fun _ _ _ => [])
       7%nat 8%nat "ORB"
     = Ok ([], [], []).
Proof.
  destruct (calibration_helpers_no_result nat nat nat (fun _ => 3%nat)
              (fun img => img) (fun _ _ => ([mkkp (0, 0)], None))
              (fun _ _ _ => []) (fun _ _ => Some 0%nat))
    as [Hh Hd].
  split.
  - apply Hh. cbn. lia.
  - apply (Hd 7%nat 8%nat "ORB"%string (ORB_create 5000)
              [mkkp (0, 0)] None [mkkp (0, 0)] None);
      try reflexivity.
    left. reflexivity.
Defined.


End Calibration.

(** ** Feature matching *)
Module Matching.
Import Py advanced_processing.

Lemma lowe_filter_acc (matches : list (list DMatch)) :
  forall good,
    (Forall (fun e => List.length e = 2%nat) matches ->
     exists kept,
       lowe_filter matches good = Ok (good ++ kept)
       /\ forall m, In m kept <->
                    exists n, In [m; n] matches
                              /\ distance m < (75 # 100) * distance n)
    /\ (~ Forall (fun e => List.length e = 2%nat) matches ->
        lowe_filter matches good = Raise ValueError).
Proof.
  induction matches as [| e rest IH]; intros good.
  - split.
    + intros _. exists []. rewrite app_nil_r. split; [reflexivity |].
      intros m. split; [intros [] | intros (n & [] & _)].
    + intros Hn. exfalso. apply Hn. constructor.
  - split.
    + intros Hall. inversion Hall as [| ? ? He Hrest]; subst.
      destruct e as [| m [| n [| x e]]]; try discriminate.
      cbn [lowe_filter].
      destruct (Qlt_le_dec (distance m) ((75 # 100) * distance n)) as [Hlt | Hge].
      * destruct (IH (good ++ [m])) as [Hok _].
        destruct (Hok Hrest) as (kept & Hrun & Hin).
        exists (m :: kept). rewrite Hrun, <- app_assoc. split; [reflexivity |].
        intros m'. split.
        -- intros [<- | Hk].
           ++ exists n. split; [left; reflexivity | exact Hlt].
           ++ apply Hin in Hk. destruct Hk as (n' & Hn' & Hd).
              exists n'. split; [right; exact Hn' | exact Hd].
        -- intros (n' & [Heq | Hn'] & Hd).
           ++ injection Heq as <- <-. left. reflexivity.
           ++ right. apply Hin. exists n'. split; assumption.
      * destruct (IH good) as [Hok _].
        destruct (Hok Hrest) as (kept & Hrun & Hin).
        exists kept. split; [exact Hrun |].
        intros m'. split.
        -- intros Hk. apply Hin in Hk. destruct Hk as (n' & Hn' & Hd).
           exists n'. split; [right; exact Hn' | exact Hd].
        -- intros (n' & [Heq | Hn'] & Hd).
           ++ injection Heq as <- <-. exfalso. apply (Qlt_not_le _ _ Hd Hge).
           ++ apply Hin. exists n'. split; assumption.
    + intros Hn.
      destruct e as [| m [| n [| x e]]]; try reflexivity.
      cbn [lowe_filter].
      assert (Hrest : ~ Forall (fun e => List.length e = 2%nat) rest).
      { intro Hrest. apply Hn. constructor; [reflexivity | exact Hrest]. }
      destruct (Qlt_le_dec (distance m) ((75 # 100) * distance n)).
      * destruct (IH (good ++ [m])) as [_ Hr]. apply Hr. exact Hrest.
      * destruct (IH good) as [_ Hr]. apply Hr. exact Hrest.
Qed.

(** X1.  The ratio test over the candidate lists of [knnMatch]: when
    every entry is a pair it returns exactly the best candidates whose
    distance is below three quarters of the second best's, and when some
    entry is not a pair the unpacking raises [ValueError]. *)
Theorem lowe_filter_keeps_clear_winners (matches : list (list DMatch)) :
  (Forall (fun e => List.length e = 2%nat) matches ->
   exists good,
     lowe_filter matches [] = Ok good
     /\ forall m, In m good <->
                  exists n, In [m; n] matches
                            /\ distance m < (75 # 100) * distance n)
  /\ (~ Forall (fun e => List.length e = 2%nat) matches ->
      lowe_filter matches [] = Raise ValueError).
Proof.
  destruct (lowe_filter_acc matches []) as [Hok Hbad]. split.
  - intros Hall. destruct (Hok Hall) as (kept & Hrun & Hin).
    exists kept. split; [exact Hrun | exact Hin].
  - exact Hbad.
Qed.

Lemma lowe_filter_keeps_clear_winners_witness :
  exists good,
    lowe_filter [[mkmatch 0 0 1; mkmatch 0 1 2];
                 [mkmatch 1 0 3; mkmatch 1 1 (7 # 2)]] [] = Ok good
    /\ forall m, In m good <->
                 exists n, In [m; n] [[mkmatch 0 0 1; mkmatch 0 1 2];
                                      [mkmatch 1 0 3; mkmatch 1 1 (7 # 2)]]
                           /\ distance m < (75 # 100) * distance n.
Proof.
  apply (proj1 (lowe_filter_keeps_clear_winners
                  [[mkmatch 0 0 1; mkmatch 0 1 2];
                   [mkmatch 1 0 3; mkmatch 1 1 (7 # 2)]])).
  repeat constructor.
Defined.

Section cv2.
Variable homography : Type.
Variable findHomography : list (Q * Q) -> list (Q * Q) -> option homography.

Lemma points_in_range (kp : list KeyPoint) (idx : list nat) (d : KeyPoint) :
  Forall (fun i => (i < List.length kp)%nat) idx ->
  points kp idx = Ok (map (fun i => pt (nth i kp d)) idx).
Proof.
  induction idx as [| i idx IH]; intros Hall; [reflexivity |].
  inversion Hall as [| ? ? Hi Hrest]; subst.
  cbn [points map]. unfold point_at.
  destruct (nth_error kp i) as [k |] eqn:Hk.
  - cbn [bind]. rewrite (IH Hrest). cbn [bind].
    rewrite (nth_error_nth kp i d Hk). reflexivity.
  - apply nth_error_None in Hk. lia.
Qed.

Lemma points_out_of_range (kp : list KeyPoint) (idx : list nat) :
  ~ Forall (fun i => (i < List.length kp)%nat) idx ->
  points kp idx = Raise IndexError.
Proof.
  induction idx as [| i idx IH]; intros Hbad.
  - exfalso. apply Hbad. constructor.
  - cbn [points]. unfold point_at.
    destruct (nth_error kp i) as [k |] eqn:Hk; [| reflexivity].
    cbn [bind]. rewrite IH; [reflexivity |].
    intro Hrest. apply Hbad. constructor; [| exact Hrest].
    apply nth_error_Some. congruence.
Qed.

(** X2.  With four matches or more [find_homography] hands OpenCV the
    matched points pairwise and in the order of the matches: the i-th
    source point is the keypoint of [kp1] the i-th match names, the i-th
    destination point the one of [kp2].  A match that names a keypoint
    beyond the end of its list makes the call raise [IndexError]. *)
Theorem find_homography_pairs_points
        (kp1 kp2 : list KeyPoint) (good_matches : list DMatch) (d : KeyPoint) :
  (4 <= List.length good_matches)%nat ->
  (Forall (fun m => (queryIdx m < List.length kp1)%nat
                    /\ (trainIdx m < List.length kp2)%nat) good_matches ->
   find_homography homography findHomography kp1 kp2 good_matches
   = Ok (findHomography
           (map (fun m => pt (nth (queryIdx m) kp1 d)) good_matches)
           (map (fun m => pt (nth (trainIdx m) kp2 d)) good_matches)))
  /\ (~ Forall (fun m => (queryIdx m < List.length kp1)%nat
                         /\ (trainIdx m < List.length kp2)%nat) good_matches ->
      find_homography homography findHomography kp1 kp2 good_matches
      = Raise IndexError).
Proof.
  intros Hlen. unfold find_homography.
  destruct (Nat.ltb_spec (List.length good_matches) 4); [lia |].
  split.
  - intros Hall.
    rewrite (points_in_range kp1 (map queryIdx good_matches) d).
    2:{ apply Forall_map. eapply Forall_impl; [| exact Hall]. intros m [Hq _]. exact Hq. }
    cbn [bind].
    rewrite (points_in_range kp2 (map trainIdx good_matches) d).
    2:{ apply Forall_map. eapply Forall_impl; [| exact Hall]. intros m [_ Ht]. exact Ht. }
    cbn [bind]. rewrite !map_map. reflexivity.
  - intros Hbad.
    destruct (Forall_dec (fun i => (i < List.length kp1)%nat)
                (fun i => lt_dec i (List.length kp1)) (map queryIdx good_matches))
      as [Hq | Hq].
    + rewrite (points_in_range kp1 _ d Hq). cbn [bind].
      rewrite points_out_of_range; [reflexivity |].
      intro Ht. apply Hbad. apply Forall_forall. intros m Hm. split.
      * rewrite Forall_forall in Hq. apply Hq. apply in_map. exact Hm.
      * rewrite Forall_forall in Ht. apply Ht. apply in_map. exact Hm.
    + rewrite (points_out_of_range kp1 _ Hq). reflexivity.
Qed.
End cv2.

Lemma find_homography_pairs_points_witness :
  find_homography (list (Q * Q) * list (Q * Q)) (fun s t => Some (s, t))
    [mkkp (1, 1); mkkp (2, 2)] [mkkp (5, 5); mkkp (6, 6)]
    [mkmatch 0 1 1; mkmatch 1 0 1; mkmatch 0 0 1; mkmatch 1 1 1]
  = Ok (Some ([(1, 1); (2, 2); (1, 1); (2, 2)],
              [(6, 6); (5, 5); (5, 5); (6, 6)])).
Proof.
  apply (proj1 (find_homography_pairs_points _ (fun s t => Some (s, t))
                  [mkkp (1, 1); mkkp (2, 2)] [mkkp (5, 5); mkkp (6, 6)]
                  [mkmatch 0 1 1; mkmatch 1 0 1; mkmatch 0 0 1; mkmatch 1 1 1]
                  (mkkp (0, 0)) (le_n 4))).
  repeat constructor.
Defined.

End Matching.

(** ** Frames on their way through the stream sink *)
Module Delivery.
Import Py RTMPStreamer.
Import SinkNotions RunNotions.

(** X3.  Every frame in the queue, and so every frame written to the
    encoder, has the resolution the streamer was created with: a push
    only ever adds such a frame, and a turn of the consumer loop only
    writes a frame it took from the queue. *)
Theorem encoder_frames_are_output_sized (self : t) :
  Forall (output_sized self) (Queue.items (frame_queue self)) ->
  (forall f b self',
      push_frame self f = Ok (b, self') ->
      Forall (output_sized self') (Queue.items (frame_queue self')))
  /\ (forall ft nft o self' nft' acts,
         loop_turn ft self nft o = Goes_on self' nft' acts ->
         Forall (output_sized self) (writes acts)
         /\ Forall (output_sized self') (Queue.items (frame_queue self'))).
Proof.
  intros Hq. split.
  - intros f b self' Hpush. unfold push_frame in Hpush.
    destruct (running self); cbn [negb] in Hpush.
    2:{ injection Hpush as _ <-. exact Hq. }
    assert (Hf1 : forall f1,
               (if negb (Z.of_nat (fst (shape f)) =? height self)%Z
                   || negb (Z.of_nat (snd (shape f)) =? width self)%Z
                then cv2_resize f (width self, height self) else Ok f) = Ok f1 ->
               output_sized self f1).
    { intros f1 Hf1. unfold output_sized.
      destruct (Z.eqb_spec (Z.of_nat (fst (shape f))) (height self)) as [Hh | Hh];
        destruct (Z.eqb_spec (Z.of_nat (snd (shape f))) (width self)) as [Hw | Hw];
        cbn [negb orb] in Hf1;
        try (injection Hf1 as <-; split; assumption);
        unfold cv2_resize in Hf1;
        destruct (Z.leb_spec (width self) 0); cbn [orb] in Hf1; try discriminate;
        destruct (Z.leb_spec (height self) 0); cbn [orb] in Hf1; try discriminate;
        destruct ((fst (shape f) =? 0)%nat || (snd (shape f) =? 0)%nat);
        try discriminate; injection Hf1 as <-; cbn [shape fst snd]; lia. }
    destruct (if negb (Z.of_nat (fst (shape f)) =? height self)%Z
                 || negb (Z.of_nat (snd (shape f)) =? width self)%Z
              then cv2_resize f (width self, height self) else Ok f)
      as [f1 | e]; [| discriminate].
    specialize (Hf1 f1 eq_refl). cbn [bind] in Hpush.
    set (q1 := if Queue.full (frame_queue self) then _ else _) in Hpush.
    assert (Hq1 : Forall (output_sized self) (Queue.items q1)).
    { subst q1. destruct (Queue.full (frame_queue self)); [| exact Hq].
      unfold Queue.get_nowait.
      destruct (Queue.items (frame_queue self)) as [| x rest] eqn:Hitems;
        [rewrite Hitems; constructor |].
      cbn [Queue.items]. inversion Hq; assumption. }
    unfold Queue.put_nowait in Hpush.
    destruct ((0 <? Queue.maxsize q1)%Z && (Queue.maxsize q1 <=? Queue.qsize q1)%Z);
      injection Hpush as _ <-; cbn [frame_queue set_frame_queue Queue.items].
    + exact Hq1.
    + apply Forall_app. split; [exact Hq1 |]. constructor; [exact Hf1 | constructor].
  - intros ft nft o self' nft' acts Hturn. unfold loop_turn in Hturn.
    destruct (negb (running self && poll_is_None o)); [discriminate |].
    destruct (Queue.empty (frame_queue self)).
    { injection Hturn as <- _ <-. split; [constructor | exact Hq]. }
    unfold Queue.get_nowait in Hturn.
    destruct (Queue.items (frame_queue self)) as [| x rest] eqn:Hitems;
      [discriminate |].
    destruct (pipe_accepts o); [| discriminate].
    injection Hturn as <- _ <-.
    inversion Hq as [| ? ? Hx Hrest]; subst.
    cbn [frame_queue set_frame_queue Queue.items]. split; [| exact Hrest].
    destruct (Qlt_le_dec 0 _); cbn; constructor; (exact Hx || constructor).
Qed.

Lemma encoder_frames_are_output_sized_witness :
  Forall (output_sized
            (set_frame_queue (Queue.mk 3 [mkframe (2, 4)%nat 8%nat]) streamer3))
         (Queue.items (frame_queue
            (set_frame_queue (Queue.mk 3 [mkframe (2, 4)%nat 8%nat]) streamer3))).
Proof.
  apply (proj1 (encoder_frames_are_output_sized streamer3 (Forall_nil _))
               (mkframe (6, 8)%nat 8%nat) true).
  reflexivity.
Defined.

(** The consumer loop on a queue of [l]: as many healthy turns as there
    are observations write the first frames of [l], oldest first. *)
Lemma while_loop_fifo (ft : Q) (obs : list observation) :
  forall (self : t) (nft : Q),
    running self = true -> Forall healthy obs ->
    (List.length obs <= List.length (Queue.items (frame_queue self)))%nat ->
    writes (List.concat (snd (while_loop ft self nft obs)))
    = firstn (List.length obs) (Queue.items (frame_queue self))
    /\ Queue.items (frame_queue (fst (while_loop ft self nft obs)))
       = skipn (List.length obs) (Queue.items (frame_queue self)).
Proof.
  induction obs as [| o obs IH]; intros self nft Hrun Hobs Hlen.
  - split; reflexivity.
  - inversion Hobs as [| ? ? [Hpoll Hpipe] Hrest]; subst.
    destruct (Queue.items (frame_queue self)) as [| x rest] eqn:Hitems;
      [cbn in Hlen; lia |].
    cbn [while_loop]. unfold loop_turn, Queue.empty, Queue.qsize, Queue.get_nowait.
    rewrite Hrun, Hpoll, Hpipe, Hitems. cbn [andb negb List.length].
    destruct (Z.eqb_spec (Z.of_nat (S (List.length rest))) 0); [lia |].
    set (self1 := set_frame_queue _ self).
    destruct (IH self1 (Py.max (time_at_update o) (nft + ft))) as [Hw Hq];
      try assumption.
    { subst self1. cbn in *. lia. }
    destruct (while_loop ft self1 (Py.max (time_at_update o) (nft + ft)) obs)
      as [self2 log].
    cbn [fst snd List.concat] in *.
    subst self1. cbn [frame_queue set_frame_queue Queue.items] in Hw, Hq.
    split; [| exact Hq].
    unfold writes in *. rewrite !flat_map_app, Hw.
    destruct (Qlt_le_dec 0 _); reflexivity.
Qed.

Lemma push_frames_keep_running (frames : list frame) :
  forall self rs,
    push_frames self frames = Ok rs ->
    running (last (map snd rs) self) = running self.
Proof.
  induction frames as [| f rest IH]; intros self rs Hrun.
  - injection Hrun as <-. reflexivity.
  - cbn [push_frames] in Hrun.
    destruct (push_frame self f) as [[b self1] | e] eqn:Hpush; [| discriminate].
    cbn [bind snd] in Hrun.
    destruct (push_frames self1 rest) as [rs1 |] eqn:Hrest; [| discriminate].
    injection Hrun as <-. cbn [map snd].
    assert (H1 : running self1 = running self).
    { unfold push_frame in Hpush. destruct (running self) eqn:Hr; cbn [negb] in Hpush.
      - destruct (if _ || _ then _ else _) as [f1 |]; [| discriminate].
        cbn [bind] in Hpush.
        destruct (Queue.put_nowait _ f1); injection Hpush as _ <-; exact Hr.
      - injection Hpush as _ <-. exact Hr. }
    specialize (IH self1 rs1 Hrest).
    destruct (map snd rs1) as [| a l] eqn:Hm.
    + cbn. exact H1.
    + rewrite <- H1, <- IH. cbn [last].
      clear. revert a. induction l as [| c l IHl]; intro a; [reflexivity |].
      cbn [last] in *. apply IHl.
Qed.

(** X4.  Frames come out in the order they went in.  After [N] pushes
    into an empty queue of capacity [C], healthy turns of the consumer
    loop (no more of them than frames are queued) write the oldest
    surviving frames first: the sequence numbers written are the first
    ones of the last [C] pushed. *)
Theorem pushed_frames_are_written_in_order
        (self : t) (C : nat) (frames : list frame)
        (ft nft : Q) (obs : list observation) :
  running self = true ->
  (0 < width self)%Z -> (0 < height self)%Z -> Forall picture frames ->
  frame_queue self = Queue.mk (Z.of_nat C) [] -> (0 < C)%nat ->
  Forall healthy obs ->
  (List.length obs <= Nat.min C (List.length frames))%nat ->
  exists rs,
    push_frames self frames = Ok rs
    /\ map seqno
         (writes (List.concat (snd (while_loop ft (last (map snd rs) self) nft obs))))
       = firstn (List.length obs) (lastn C (map seqno frames)).
Proof.
  intros Hrun Hw Hh Hpic Hq HC Hobs Hlen.
  destruct (StreamSink.push_frames_running frames self C)
    as (rs & Hrs & Hn & Ht & Hb & Hl); try assumption.
  - rewrite Hq. reflexivity.
  - rewrite Hq. cbn. lia.
  - exists rs. split; [exact Hrs |].
    rewrite Hq in Hl. cbn [Queue.items map app] in Hl.
    destruct (while_loop_fifo ft obs (last (map snd rs) self) nft) as [Hwr _].
    + rewrite (push_frames_keep_running frames self rs Hrs). exact Hrun.
    + exact Hobs.
    + rewrite <- (length_map seqno), Hl. unfold lastn.
      rewrite length_skipn, length_map. lia.
    + rewrite Hwr, <- firstn_map, Hl. reflexivity.
Qed.

Lemma pushed_frames_are_written_in_order_witness :
  exists rs,
    push_frames streamer3 five_frames = Ok rs
    /\ map seqno
         (writes (List.concat (snd (while_loop (1 # 30) (last (map snd rs) streamer3) 0
                                 [mkobs true 0 0 true; mkobs true 1 1 true]))))
       = [3; 4]%nat.
Proof.
  apply (pushed_frames_are_written_in_order streamer3 3 five_frames (1 # 30) 0
           [mkobs true 0 0 true; mkobs true 1 1 true]).
  - reflexivity.
  - reflexivity.
  - reflexivity.
  - repeat constructor; cbn; discriminate.
  - reflexivity.
  - lia.
  - repeat constructor.
  - cbn. lia.
Defined.



(** X6.  [stop] always returns.  Afterwards the streamer is not
    running, holds no process and has an empty queue, so every later
    push is refused and leaves it as it is; a process it held was asked
    to terminate and was killed exactly when the wait for it expired; and
    a second [stop] changes nothing and touches no process. *)
Theorem stop_leaves_nothing_behind (self : t) (wait_expires : bool) :
  exists self' calls,
    stop self wait_expires = Ok (self', calls)
    /\ running self' = false /\ process self' = None
    /\ Queue.items (frame_queue self') = []
    /\ (forall f, push_frame self' f = Ok (false, self'))
    /\ (forall p, process self = Some p ->
                  In (proc_terminate p) calls
                  /\ (In (proc_kill p) calls <-> wait_expires = true))
    /\ (forall again, exists calls2,
           stop self' again = Ok (self', calls2)
           /\ forall p, ~ In (proc_terminate p) calls2
                        /\ ~ In (proc_kill p) calls2).
Proof.
  destruct (StreamSink.stop_returns self wait_expires)
    as (self' & calls & Hstop & Hrun & Hproc & Hitems).
  exists self', calls. split; [exact Hstop |].
  split; [exact Hrun |]. split; [exact Hproc |]. split; [exact Hitems |].
  split; [| split].
  - intros f. unfold push_frame. rewrite Hrun. reflexivity.
  - intros p Hp. unfold stop in Hstop.
    change (process (set_running false self)) with (process self) in Hstop.
    rewrite Hp in Hstop. injection Hstop as _ <-. split.
    + apply in_or_app. right. left. reflexivity.
    + split.
      * intros Hin. apply in_app_or in Hin. destruct Hin as [Hin | Hin].
        { destruct (thread self); cbn [In] in Hin;
            [destruct Hin as [Hin | Hin]; [discriminate | contradiction]
            | contradiction]. }
        destruct wait_expires; [reflexivity |].
        cbn [In app] in Hin.
        destruct Hin as [Hin | [Hin | Hin]];
          [discriminate | discriminate | contradiction].
      * intros ->. apply in_or_app. right. right. right. left. reflexivity.
  - intros again.
    destruct (StreamSink.stop_twice self wait_expires again)
      as (self1 & calls1 & Hstop1 & Hstop2).
    assert (self1 = self') by congruence. subst self1.
    eexists. split; [exact Hstop2 |].
    intros p. destruct (thread self); split; intros Hin; cbn [In] in Hin;
      try contradiction;
      (destruct Hin as [Hin | Hin]; [discriminate | contradiction]).
Qed.

End Delivery.

(** ** The capture thread *)
Module CaptureThread.
Import Py Insta360Processor.

(** X7.  The life of a processor: [start] on a camera that does not
    open raises [ValueError] and starts no thread; on one that opens it
    starts the capture thread once, a second [start] doing nothing; a
    [stop] after it joins the thread and releases the device, and so
    does every further [stop]. *)
Theorem processor_start_then_stop (self : t) (th th2 : Thread) (opened2 : bool) :
  running self = false ->
  start self false th = Raise ValueError
  /\ exists self1 self2,
       start self true th = Ok (self1, [thread_start th])
       /\ running self1 = true
       /\ start self1 opened2 th2 = Ok (self1, [])
       /\ stop self1
          = Ok (self2, [thread_join th; cap_release (mkcap (camera_index self))])
       /\ running self2 = false
       /\ stop self2
          = Ok (self2, [thread_join th; cap_release (mkcap (camera_index self))]).
Proof.
  intros Hrun. unfold start. rewrite Hrun. cbn [negb]. split; [reflexivity |].
  do 2 eexists. split; [reflexivity |]. cbn. repeat split.
Qed.

Lemma processor_start_then_stop_witness :
  start (__init__ 0 3840 1920 None) false (mkthread 1) = Raise ValueError
  /\ exists self1 self2,
       start (__init__ 0 3840 1920 None) true (mkthread 1)
       = Ok (self1, [thread_start (mkthread 1)])
       /\ running self1 = true
       /\ start self1 true (mkthread 2) = Ok (self1, [])
       /\ stop self1
          = Ok (self2, [thread_join (mkthread 1);
                        cap_release (mkcap (camera_index (__init__ 0 3840 1920 None)))])
       /\ running self2 = false
       /\ stop self2
          = Ok (self2, [thread_join (mkthread 1);
                        cap_release (mkcap (camera_index (__init__ 0 3840 1920 None)))]).
Proof.
  apply (processor_start_then_stop (__init__ 0 3840 1920 None)
           (mkthread 1) (mkthread 2) true).
  reflexivity.
Defined.

(** A loop keeps what each of its turns keeps. *)
Lemma for_each_keeps {S A : Type} (P : S -> Prop) (body : A -> S -> result S) :
  (forall a s s1, P s -> body a s = Ok s1 -> P s1) ->
  forall (l : list A) (s s' : S), P s -> for_each l body s = Ok s' -> P s'.
Proof.
  intros Hbody. induction l as [| a l IH]; intros s s' Hs Hrun.
  - cbn in Hrun. injection Hrun as <-. exact Hs.
  - cbn [for_each] in Hrun. destruct (body a s) as [s1 |] eqn:Hturn;
      cbn [bind] in Hrun; [| discriminate].
    apply (IH s1 s'); [| exact Hrun]. exact (Hbody a s s1 Hs Hturn).
Qed.

Lemma setitem_shape {A} (a a1 : np.arr2 A) (y x : Z) (v : A) :
  np.setitem a y x v = Ok a1 ->
  np.shape0 a1 = np.shape0 a /\ np.shape1 a1 = np.shape1 a.
Proof.
  unfold np.setitem. intros Hset.
  destruct (np.wrap_index (np.shape0 a) y); cbn [bind] in Hset; [| discriminate].
  destruct (np.wrap_index (np.shape1 a) x); cbn [bind] in Hset; [| discriminate].
  injection Hset as <-. split; reflexivity.
Qed.

Section process.
Variable m : np.libm.
Variable cv2_remap :
  image -> np.arr2 PrimFloat.float -> np.arr2 PrimFloat.float -> result image.
Variable equalize_brightness : image -> result image.
Variable color_balance : image -> result image.

(** OpenCV's [remap] returns an image of the size of the maps. *)
Hypothesis remap_size :
  forall src mx my dst,
    cv2_remap src mx my = Ok dst -> np.dim1 dst = np.shape1 mx.

(** A turn of the inner loop keeps the shape of the two tables. *)
Lemma map_pixel_shape (self : t) (Sw Sh H W y x : Z)
      (maps maps1 : np.arr2 PrimFloat.float * np.arr2 PrimFloat.float) :
  Design.shaped H W maps ->
  map_pixel m self Sw Sh y x maps = Ok maps1 ->
  Design.shaped H W maps1.
Proof.
  destruct maps as [mx my]. intros Hs Hrun. unfold map_pixel in Hrun.
  cbv zeta in Hrun.
  repeat match type of Hrun with
         | bind ?c _ = Ok _ =>
             let Hc := fresh "Hc" in
             destruct c eqn:Hc; cbn [bind] in Hrun; [| discriminate]
         | (if ?b then _ else _) = Ok _ => destruct b
         end;
    try (injection Hrun as <-; exact Hs).
  injection Hrun as <-.
  destruct Hs as (H0 & H1 & H2 & H3). cbn [fst snd] in *.
  repeat match goal with
         | Hc : np.setitem _ _ _ _ = Ok _ |- _ =>
             apply setitem_shape in Hc; destruct Hc
         end.
  repeat split; cbn [fst snd]; congruence.
Qed.

Lemma init_mapping_table_width (self : t) (frame_shape : Z * Z) :
  (0 <= output_width self)%Z ->
  (exists e, _init_mapping_table m self frame_shape = Raise e)
  \/ exists mx my,
       _init_mapping_table m self frame_shape = Ok (mx, my)
       /\ np.shape1 mx = output_width self.
Proof.
  intros HW. destruct frame_shape as [Sh Sw].
  destruct (_init_mapping_table m self (Sh, Sw)) as [[mx my] | e] eqn:Hrun;
    [| left; exists e; reflexivity].
  right. exists mx, my. split; [reflexivity |].
  unfold _init_mapping_table, np.zeros in Hrun.
  destruct ((output_height self <? 0)%Z || (output_width self <? 0)%Z);
    [discriminate |].
  cbn [bind] in Hrun.
  apply (for_each_keeps
           (Design.shaped (output_height self) (output_width self))) in Hrun.
  - apply Hrun.
  - intros y maps maps1 Hs Hrow.
    apply (for_each_keeps
             (Design.shaped (output_height self) (output_width self)))
      in Hrow; [exact Hrow | | exact Hs].
    intros x s s1 Hs1 Hturn.
    exact (map_pixel_shape self Sw Sh _ _ y x s s1 Hs1 Hturn).
  - repeat split.
Qed.

(** Without a table and with an output at least one pixel wide,
    [process_frame] raises on every frame. *)
Lemma process_frame_fails (self : t) (frame0 : image) :
  map_x self = None -> (1 <= output_width self)%Z ->
  exists e,
    process_frame m cv2_remap equalize_brightness color_balance self
      (Some frame0)
    = Raise e.
Proof.
  intros Hmap HW. unfold process_frame. rewrite Hmap.
  destruct (init_mapping_table_width self (np.dim0 frame0, np.dim1 frame0))
    as [(e & ->) | (mx & my & -> & Hmx)]; [lia | |].
  - exists e. reflexivity.
  - cbn [bind fst snd set_maps map_x map_y].
    destruct (cv2_remap frame0 mx my) as [pano | e] eqn:Hremap.
    + cbn [bind]. rewrite SeamBlend.blend_seam_raises.
      * exists ValueError. reflexivity.
      * rewrite (remap_size _ _ _ _ Hremap), Hmx. exact HW.
    + exists e. reflexivity.
Qed.

(** X8.  [process_frame] never returns a panorama for a frame handed
    to a processor that has no table yet and an output at least one
    pixel wide: building the table or the remap raises, or else the
    seam blend does. *)
Theorem process_frame_never_returns (self : t) (frame0 : image) :
  map_x self = None -> (1 <= output_width self)%Z ->
  exists e,
    process_frame m cv2_remap equalize_brightness color_balance self
      (Some frame0)
    = Raise e.
Proof.
  intros Hmap HW. exact (process_frame_fails self frame0 Hmap HW).
Qed.

(** X9.  The capture thread never stores a processed frame.  Started
    on a processor without a table, it sleeps after every failed read
    and dies in [process_frame] on the first frame the camera delivers,
    with the two frame slots as they were. *)
Theorem capture_loop_dies_on_first_frame
        (self : t) (failed : nat) (frame0 : image) (later : list (option image)) :
  running self = true -> map_x self = None -> (1 <= output_width self)%Z ->
  exists e,
    _capture_loop m cv2_remap equalize_brightness color_balance self
      (List.repeat None failed ++ Some frame0 :: later)
    = (failed, thread_died e (frame self) (processed_frame self)).
Proof.
  intros Hrun Hmap HW.
  destruct (process_frame_fails self frame0 Hmap HW) as (e & He).
  exists e. induction failed as [| n IH].
  - cbn [List.repeat app _capture_loop]. rewrite Hrun, He. reflexivity.
  - cbn [List.repeat app _capture_loop]. rewrite Hrun. cbn [negb].
    rewrite IH. reflexivity.
Qed.
End process.

Lemma blank_remap_size (src : image) (mx my : np.arr2 PrimFloat.float)
      (dst : image) :
  CaptureNotions.blank_remap src mx my = Ok dst -> np.dim1 dst = np.shape1 mx.
Proof. intros H. injection H as <-. reflexivity. Qed.

Lemma process_frame_never_returns_witness :
  exists e,
    process_frame Design.ahead CaptureNotions.blank_remap CaptureNotions.pass
                  CaptureNotions.pass
                  CaptureNotions.capturing (Some CaptureNotions.frame8)
    = Raise e.
Proof.
  apply (process_frame_never_returns Design.ahead CaptureNotions.blank_remap
           CaptureNotions.pass CaptureNotions.pass blank_remap_size
           CaptureNotions.capturing CaptureNotions.frame8).
  - reflexivity.
  - cbn. lia.
Defined.

Lemma capture_loop_dies_on_first_frame_witness :
  exists e,
    _capture_loop Design.ahead CaptureNotions.blank_remap CaptureNotions.pass
      CaptureNotions.pass CaptureNotions.capturing
      (List.repeat None 2 ++ Some CaptureNotions.frame8 :: [None; Some CaptureNotions.frame8])
    = (2%nat, thread_died e None None).
Proof.
  apply (capture_loop_dies_on_first_frame Design.ahead
           CaptureNotions.blank_remap
           CaptureNotions.pass CaptureNotions.pass blank_remap_size
           CaptureNotions.capturing 2 CaptureNotions.frame8
           [None; Some CaptureNotions.frame8]).
  - reflexivity.
  - reflexivity.
  - cbn. lia.
Defined.

End CaptureThread.

(** ** Rounding to a floating-point format *)
Module Rounding.
Local Open Scope Z_scope.

Lemma round_half_even_whole (q : Q) (n : Z) :
  (q == inject_Z n)%Q -> np.round_half_even q = n.
Proof.
  intros Hq. unfold np.round_half_even.
  assert (Hf : Qfloor q = n) by (rewrite Hq; apply Qfloor_Z).
  rewrite Hf.
  assert (Hlt : (q - inject_Z n < 1 # 2)%Q).
  { rewrite Hq. setoid_replace (inject_Z n - inject_Z n)%Q with 0%Q by ring.
    reflexivity. }
  destruct (Qcompare_spec (q - inject_Z n) (1 # 2)) as [Hc | Hc | Hc];
    [exfalso; Lqa.lra | reflexivity | exfalso; Lqa.lra].
Qed.

Lemma round_half_even_le (p q : Q) :
  (p <= q)%Q -> np.round_half_even p <= np.round_half_even q.
Proof.
  intros Hpq. unfold np.round_half_even.
  pose proof (Qfloor_resp_le _ _ Hpq) as Hf.
  destruct (Qcompare_spec (p - inject_Z (Qfloor p)) (1 # 2)) as [Hp | Hp | Hp];
    destruct (Qcompare_spec (q - inject_Z (Qfloor q)) (1 # 2)) as [Hq | Hq | Hq];
    destruct (Z.even (Qfloor p)) eqn:Hep;
    destruct (Z.even (Qfloor q)) eqn:Heq;
    try lia;
    (destruct (Z.eq_dec (Qfloor p) (Qfloor q)) as [He | Hne]; [| lia]);
    exfalso; rewrite He in *; first [congruence | Lqa.lra].
Qed.

Lemma two_pow_pos (e : Z) : (0 < 2 ^ e)%Q.
Proof. apply Qpower_0_lt. reflexivity. Qed.

Lemma two_pow_succ (e : Z) : (2 ^ (e + 1) == 2 * 2 ^ e)%Q.
Proof.
  rewrite Qpower_plus by discriminate. change (2 ^ 1)%Q with 2%Q. ring.
Qed.

Lemma two_pow_Z (e : Z) : 0 <= e -> (inject_Z (2 ^ e) == 2 ^ e)%Q.
Proof. intros He. apply (Zpower_Qpower 2 e He). Qed.

(** [ilog2] is the whole part of the binary logarithm. *)
Lemma ilog2_spec (n d : positive) :
  (2 ^ np.ilog2 n d <= Zpos n # d)%Q /\ (Zpos n # d < 2 ^ (np.ilog2 n d + 1))%Q.
Proof.
  unfold np.ilog2.
  set (a := Z.log2 (Zpos n)). set (b := Z.log2 (Zpos d)).
  destruct (Z.log2_spec (Zpos n) ltac:(lia)) as [Ha1 Ha2]. fold a in Ha1, Ha2.
  destruct (Z.log2_spec (Zpos d) ltac:(lia)) as [Hb1 Hb2]. fold b in Hb1, Hb2.
  assert (Ha0 : 0 <= a) by apply Z.log2_nonneg.
  assert (Hb0 : 0 <= b) by apply Z.log2_nonneg.
  rewrite Zle_Qle, two_pow_Z in Ha1 by lia.
  rewrite Zlt_Qlt, two_pow_Z, <- Z.add_1_r, two_pow_succ in Ha2 by lia.
  rewrite Zle_Qle, two_pow_Z in Hb1 by lia.
  rewrite Zlt_Qlt, two_pow_Z, <- Z.add_1_r, two_pow_succ in Hb2 by lia.
  pose proof (two_pow_pos a) as HA. pose proof (two_pow_pos b) as HB.
  assert (Hk : (2 ^ (a - b) == 2 ^ a / 2 ^ b)%Q).
  { apply Qpower_minus. discriminate. }
  assert (Hq : (Zpos n # d == inject_Z (Zpos n) / inject_Z (Zpos d))%Q).
  { apply Qmake_Qdiv. }
  set (X := inject_Z (Zpos n)) in *. set (Y := inject_Z (Zpos d)) in *.
  set (A := (2 ^ a)%Q) in *. set (B := (2 ^ b)%Q) in *.
  assert (HY : (0 < Y)%Q) by Lqa.lra.
  destruct (Qle_bool (2 ^ (a - b)) (Zpos n # d)) eqn:Ht.
  - apply Qle_bool_iff in Ht. split; [exact Ht |].
    rewrite two_pow_succ, Hk, Hq.
    apply Qlt_shift_div_r; [exact HY |].
    setoid_replace (2 * (A / B) * Y)%Q with ((2 * A) * Y / B)%Q
      by (field; Lqa.lra).
    apply Qlt_shift_div_l; [exact HB |]. Lqa.nra.
  - assert (Hlt : (Zpos n # d < 2 ^ (a - b))%Q).
    { apply Qnot_le_lt. intros Hle. apply Qle_bool_iff in Hle. congruence. }
    split.
    + assert (Hk1 : (2 ^ (a - b - 1) == A / (2 * B))%Q).
      { replace (a - b - 1) with (a - (b + 1)) by lia.
        rewrite Qpower_minus by discriminate. fold A.
        rewrite two_pow_succ. reflexivity. }
      rewrite Hk1, Hq. apply Qle_shift_div_l; [exact HY |].
      setoid_replace (A / (2 * B) * Y)%Q with (A * Y / (2 * B))%Q
        by (field; Lqa.lra).
      apply Qle_shift_div_r; [Lqa.lra |]. Lqa.nra.
    + replace (a - b - 1 + 1) with (a - b) by lia. exact Hlt.
Qed.

Lemma rnd_zero (prec emin : Z) (q : Q) :
  (q == 0)%Q -> np.rnd prec emin q = 0%Q.
Proof.
  intros Hq. unfold np.rnd.
  assert (Hn : Qnum q = 0).
  { unfold Qeq in Hq. cbn in Hq. lia. }
  rewrite Hn. reflexivity.
Qed.

(** A number of the format is left as it is. *)
Lemma rnd_fixed (prec emin : Z) (q : Q) (m e : Z) :
  0 < m < 2 ^ prec -> 0 < prec -> emin <= e ->
  (q == inject_Z m * 2 ^ e)%Q ->
  (np.rnd prec emin q == q)%Q.
Proof.
  intros Hm Hp He Hq.
  assert (Hpos : (0 < q)%Q).
  { rewrite Hq. apply Qmult_lt_0_compat; [| apply two_pow_pos].
    change 0%Q with (inject_Z 0). rewrite <- Zlt_Qlt. lia. }
  destruct q as [qn qd]. unfold np.rnd. cbn [Qnum Qden].
  destruct qn as [| n | n]; try (exfalso; unfold Qlt in Hpos; cbn in Hpos; lia).
  unfold np.rnd_pos.
  destruct (ilog2_spec n qd) as [Hk1 Hk2].
  set (k := np.ilog2 n qd) in *.
  set (E := Z.max (k - (prec - 1)) emin).
  assert (HkE : k < prec + e).
  { apply (Qpower_lt_compat_l_inv 2); [| reflexivity].
    apply (Qle_lt_trans _ (Zpos n # qd)); [exact Hk1 |].
    rewrite Hq, Qpower_plus by discriminate.
    apply Qmult_lt_compat_r; [apply two_pow_pos |].
    rewrite <- two_pow_Z by lia. rewrite <- Zlt_Qlt. lia. }
  assert (HE : E <= e) by (unfold E; lia).
  assert (Hscaled : ((Zpos n # qd) / 2 ^ E == inject_Z (m * 2 ^ (e - E)))%Q).
  { rewrite Hq, inject_Z_mult, two_pow_Z by lia.
    rewrite Qpower_minus by discriminate.
    field. pose proof (two_pow_pos E). Lqa.lra. }
  rewrite (round_half_even_whole _ _ Hscaled).
  rewrite Hq, inject_Z_mult, two_pow_Z by lia.
  rewrite Qpower_minus by discriminate.
  field. pose proof (two_pow_pos E). Lqa.lra.
Qed.

(** Whole numbers below [2 ^ prec] are numbers of the format. *)
Lemma rnd_whole (prec emin : Z) (q : Q) (n : Z) :
  0 <= n < 2 ^ prec -> 0 < prec -> emin <= 0 ->
  (q == inject_Z n)%Q -> (np.rnd prec emin q == inject_Z n)%Q.
Proof.
  intros Hn Hp He Hq.
  destruct (Z.eq_dec n 0) as [-> | Hnz].
  - rewrite (rnd_zero _ _ _ Hq). reflexivity.
  - transitivity q; [| exact Hq].
    apply (rnd_fixed prec emin q n 0); try lia.
    rewrite Hq. change (2 ^ 0)%Q with 1%Q. ring.
Qed.

(** The result of rounding a number that is not below the least normal
    one is a number of the format, and is positive. *)
Lemma rnd_normal (prec emin : Z) (n d : positive) :
  0 < prec -> emin <= np.ilog2 n d - (prec - 1) ->
  exists m e,
    0 < m < 2 ^ prec /\ emin <= e
    /\ (np.rnd prec emin (Zpos n # d) == inject_Z m * 2 ^ e)%Q.
Proof.
  intros Hp Hnormal. unfold np.rnd. cbn [Qnum Qden]. unfold np.rnd_pos.
  destruct (ilog2_spec n d) as [Hk1 Hk2].
  set (k := np.ilog2 n d) in *.
  rewrite Z.max_l by lia.
  set (E := k - (prec - 1)).
  set (M := np.round_half_even ((Zpos n # d) / 2 ^ E)).
  pose proof (two_pow_pos E) as HE.
  assert (Hlo : 2 ^ (prec - 1) <= M).
  { rewrite <- (round_half_even_whole (inject_Z (2 ^ (prec - 1))) _ (Qeq_refl _)).
    apply round_half_even_le. apply Qle_shift_div_l; [exact HE |].
    rewrite two_pow_Z, <- Qpower_plus by (discriminate || lia).
    replace (prec - 1 + E) with k by (unfold E; lia). exact Hk1. }
  assert (Hhi : M <= 2 ^ prec).
  { rewrite <- (round_half_even_whole (inject_Z (2 ^ prec)) _ (Qeq_refl _)).
    apply round_half_even_le. apply Qle_shift_div_r; [exact HE |].
    rewrite two_pow_Z, <- Qpower_plus by (discriminate || lia).
    replace (prec + E) with (k + 1) by (unfold E; lia).
    apply Qlt_le_weak. exact Hk2. }
  assert (Hpow : 0 < 2 ^ (prec - 1)) by (apply Z.pow_pos_nonneg; lia).
  assert (Hdouble : 2 ^ prec = 2 * 2 ^ (prec - 1)).
  { replace prec with (Z.succ (prec - 1)) at 1 by lia.
    apply Z.pow_succ_r. lia. }
  destruct (Z.eq_dec M (2 ^ prec)) as [Hcarry | Hnocarry].
  - exists (2 ^ (prec - 1)), (E + 1). split; [lia |]. split; [unfold E; lia |].
    rewrite Hcarry, Hdouble, inject_Z_mult, two_pow_succ.
    change (inject_Z 2) with 2%Q. ring.
  - exists M, E. split; [lia |]. split; [unfold E; lia |]. reflexivity.
Qed.

(** Rounding a whole number of one or more gives a positive number of
    the format. *)
Lemma rnd_count (prec emin : Z) (N : Z) :
  0 < prec -> emin <= - (prec - 1) -> 1 <= N ->
  exists m e,
    0 < m < 2 ^ prec /\ emin <= e
    /\ (np.rnd prec emin (inject_Z N) == inject_Z m * 2 ^ e)%Q.
Proof.
  intros Hp He HN. destruct N as [| n | n]; try lia.
  apply (rnd_normal prec emin n 1 Hp).
  destruct (ilog2_spec n 1) as [_ Hk2].
  assert (H0 : -1 < np.ilog2 n 1).
  { assert (Hlt : (2 ^ 0 < 2 ^ (np.ilog2 n 1 + 1))%Q).
    { apply (Qle_lt_trans _ (Zpos n # 1)); [| exact Hk2].
      change (2 ^ 0)%Q with 1%Q. unfold Qle. cbn [Qnum Qden]. lia. }
    apply (Qpower_lt_compat_l_inv 2) in Hlt; [lia | reflexivity]. }
  lia.
Qed.

Lemma f32_zero (q : Q) : (q == 0)%Q -> np.f32 q = 0%Q.
Proof. apply rnd_zero. Qed.

Lemma f32_whole (q : Q) (n : Z) :
  0 <= n < 2 ^ 24 -> (q == inject_Z n)%Q -> (np.f32 q == inject_Z n)%Q.
Proof. intros Hn. apply rnd_whole; lia. Qed.

(** The float32 number of a count of one or more is positive, and a
    number equal to it is left as it is. *)
Lemma f32_count (N : Z) :
  1 <= N ->
  (0 < np.f32 (inject_Z N))%Q
  /\ forall q, (q == np.f32 (inject_Z N))%Q ->
                (np.f32 q == np.f32 (inject_Z N))%Q.
Proof.
  intros HN.
  destruct (rnd_count 24 (-149) N) as (m & e & Hm & He & Hrep); try lia.
  fold np.f32 in Hrep. split.
  - rewrite Hrep. apply Qmult_lt_0_compat; [| apply two_pow_pos].
    change 0%Q with (inject_Z 0). rewrite <- Zlt_Qlt. lia.
  - intros q Hq. transitivity q; [| exact Hq].
    apply (rnd_fixed 24 (-149) q m e); try lia.
    rewrite Hq. exact Hrep.
Qed.

Lemma f64_whole (q : Q) (n : Z) :
  0 <= n < 2 ^ 53 -> (q == inject_Z n)%Q -> (np.f64 q == inject_Z n)%Q.
Proof. intros Hn. apply rnd_whole; lia. Qed.

End Rounding.

(** ** The offline seam optimiser *)
Module OfflineSeams.
Import Py advanced_processing.
Import BlendNotions SeamNotions.
Local Open Scope Z_scope.

Lemma zeros_cases {A} (z : A) (h w : Z) :
  np.zeros z h w = Raise ValueError
  \/ (np.zeros z h w = Ok (np.mk2 h w (fun _ _ => z)) /\ 0 <= h /\ 0 <= w).
Proof.
  unfold np.zeros.
  destruct (Z.ltb_spec h 0); [left; reflexivity |].
  destruct (Z.ltb_spec w 0); [left; reflexivity |].
  right. auto.
Qed.

Lemma zeros3_cases {A} (z : A) (h w c : Z) :
  np.zeros3 z h w c = Raise ValueError
  \/ (np.zeros3 z h w c = Ok (np.mk3 h w c (fun _ _ _ => z))
      /\ 0 <= h /\ 0 <= w /\ 0 <= c).
Proof.
  unfold np.zeros3.
  destruct (Z.ltb_spec h 0); [left; reflexivity |].
  destruct (Z.ltb_spec w 0); [left; reflexivity |].
  destruct (Z.ltb_spec c 0); [left; reflexivity |].
  right. auto.
Qed.

Ltac open_shapes :=
  unfold np.columns, np.slice_bounds, np.clamp, broadcasts in *;
  cbn [np.dim0 np.dim1 np.dim2 snd fst np.shape0 np.shape1
       np.expand_dims np.map1] in *.

Ltac split_clamps :=
  repeat match goal with
         | H : context [Z.ltb ?a ?b] |- _ => destruct (Z.ltb_spec a b)
         | |- context [Z.ltb ?a ?b] => destruct (Z.ltb_spec a b)
         end.

Ltac zero_clamps :=
  repeat match goal with
         | |- context [Z.ltb ?a 0] => destruct (Z.ltb_spec a 0); try lia
         end.

Ltac min_max :=
  repeat match goal with
         | |- context [Z.min ?a ?b] =>
             first [rewrite (Z.min_l a b) by lia | rewrite (Z.min_r a b) by lia]
         | |- context [Z.max ?a ?b] =>
             first [rewrite (Z.max_l a b) by lia | rewrite (Z.max_r a b) by lia]
         end.

Ltac decide_columns :=
  repeat match goal with
         | |- context [Z.leb ?a ?b] =>
             destruct (Z.leb_spec a b); try lia; cbn [andb]
         | |- context [Z.ltb ?a ?b] =>
             destruct (Z.ltb_spec a b); try lia; cbn [andb]
         end.

(** X13.  [optimize_seams] needs an overlap of at least one column and
    of at most the width of the images: on two images of the same width
    a negative overlap, an overlap wider than the images and, for images
    two or more columns wide, an overlap of zero all end in
    [ValueError]. *)
Theorem optimize_seams_rejects_bad_overlap
        (left_img right_img : np.arr3 Q) (overlap_width : Z) :
  np.dim1 right_img = np.dim1 left_img -> 0 <= np.dim1 left_img ->
  overlap_width < 0 \/ np.dim1 left_img < overlap_width
  \/ (overlap_width = 0 /\ 2 <= np.dim1 left_img) ->
  optimize_seams left_img right_img overlap_width = Raise ValueError.
Proof.
  intros Hsame Hw Hbad. unfold optimize_seams. cbv beta iota zeta.
  destruct (zeros_cases 0%Q (np.dim0 left_img) overlap_width)
    as [-> | (-> & Hh & Hov)]; [reflexivity |].
  cbn [bind].
  destruct (SeamBlend.fill_columns
              (fun i => np.f32 (np.f64 (inject_Z (overlap_width - i)
                                         / inject_Z overlap_width)%Q))
              (range overlap_width)
              (np.mk2 (np.dim0 left_img) overlap_width (fun _ _ => 0%Q)))
    as (weight & -> & Hw0 & Hw1); [apply SeamBlend.range_bounds |].
  cbn [bind np.shape0 np.shape1] in *.
  destruct (SeamBlend.map2_cases (fun l w => np.f32 (l * w)%Q)
              (np.columns left_img (Some (- overlap_width)) None)
              (np.expand_dims weight))
    as [-> | (a & -> & _ & Ha & _)]; [reflexivity |].
  cbn [bind].
  destruct (SeamBlend.map2_cases (fun r w => np.f32 (r * w)%Q)
              (np.columns right_img None (Some overlap_width))
              (np.map1 (fun w => np.f32 (1 - w)%Q) (np.expand_dims weight)))
    as [-> | (b & -> & _ & Hb & _)]; [reflexivity |].
  cbn [bind].
  destruct (SeamBlend.map2_cases (fun x y => np.f32 (x + y)%Q) a b)
    as [-> | (bl & -> & _ & Hbl & _)];
    [reflexivity |].
  cbn [bind].
  destruct (zeros3_cases 0%Q (np.dim0 left_img)
              (np.dim1 left_img * 2 - overlap_width) 3)
    as [-> | (-> & _ & Hres & _)]; [reflexivity |].
  cbn [bind].
  destruct (SeamBlend.setcolumns_cases np.uint8
              (np.mk3 (np.dim0 left_img) (np.dim1 left_img * 2 - overlap_width) 3
                      (fun _ _ _ => 0%Q))
              None (Some (np.dim1 left_img - overlap_width))
              (np.columns left_img None (Some (np.dim1 left_img - overlap_width))))
    as [-> | (r1 & -> & _ & _ & Hr1 & _)]; [reflexivity |].
  cbn [bind].
  destruct (SeamBlend.setcolumns_cases np.uint8 r1
              (Some (np.dim1 left_img - overlap_width)) (Some (np.dim1 left_img)) bl)
    as [-> | (r2 & -> & Hfit2 & _)]; [reflexivity |].
  exfalso. rewrite Hr1 in Hfit2. open_shapes.
  rewrite ?Hsame, ?Hw1 in *. split_clamps; lia.
Qed.

Lemma optimize_seams_rejects_bad_overlap_witness :
  optimize_seams left4 right4 0 = Raise ValueError
  /\ optimize_seams left4 right4 5 = Raise ValueError.
Proof.
  split; apply optimize_seams_rejects_bad_overlap; cbn; lia.
Defined.

Lemma broadcast_dim_ok (m n r : Z) :
  broadcasts m n r -> np.broadcast_dim m n = Ok r.
Proof.
  unfold broadcasts, np.broadcast_dim. intros Hb.
  destruct (Z.eqb_spec m n); [f_equal; lia |].
  destruct (Z.eqb_spec m 1); [f_equal; lia |].
  destruct (Z.eqb_spec n 1); [f_equal; lia | lia].
Qed.

Lemma map2_ok {A B C} (op : A -> B -> C) (a : np.arr3 A) (b : np.arr3 B)
      (d0 d1 d2 : Z) :
  broadcasts (np.dim0 a) (np.dim0 b) d0 ->
  broadcasts (np.dim1 a) (np.dim1 b) d1 ->
  broadcasts (np.dim2 a) (np.dim2 b) d2 ->
  exists c, np.map2 op a b = Ok c
            /\ np.dim0 c = d0 /\ np.dim1 c = d1 /\ np.dim2 c = d2
            /\ forall r x k,
                 np.item3 c r x k
                 = op (np.item3 a (np.stretch (np.dim0 a) r)
                          (np.stretch (np.dim1 a) x) (np.stretch (np.dim2 a) k))
                      (np.item3 b (np.stretch (np.dim0 b) r)
                          (np.stretch (np.dim1 b) x) (np.stretch (np.dim2 b) k)).
Proof.
  intros H0 H1 H2. unfold np.map2.
  rewrite (broadcast_dim_ok _ _ _ H0), (broadcast_dim_ok _ _ _ H1),
    (broadcast_dim_ok _ _ _ H2).
  cbn [bind]. eexists. split; [reflexivity |]. cbn. auto.
Qed.

Lemma setcolumns_ok {A B} (cast : B -> A) (a : np.arr3 A)
      (start stop : option Z) (src : np.arr3 B) :
  np.dim0 src = np.dim0 a ->
  np.dim1 src = snd (np.slice_bounds (np.dim1 a) start stop) ->
  np.dim2 src = np.dim2 a ->
  exists r,
    np.setcolumns cast a start stop src = Ok r
    /\ np.dim0 r = np.dim0 a /\ np.dim1 r = np.dim1 a /\ np.dim2 r = np.dim2 a
    /\ forall r0 c k,
         np.item3 r r0 c k
         = if (fst (np.slice_bounds (np.dim1 a) start stop) <=? c)
              && (c <? fst (np.slice_bounds (np.dim1 a) start stop)
                       + snd (np.slice_bounds (np.dim1 a) start stop))
           then cast (np.item3 src (np.stretch (np.dim0 src) r0)
                         (np.stretch (np.dim1 src)
                            (c - fst (np.slice_bounds (np.dim1 a) start stop)))
                         (np.stretch (np.dim2 src) k))
           else np.item3 a r0 c k.
Proof.
  intros H0 H1 H2. unfold np.setcolumns.
  destruct (np.slice_bounds (np.dim1 a) start stop) as [lo len].
  cbn [fst snd] in *. unfold np.fits.
  rewrite H0, H1, H2, !Z.eqb_refl. cbn [orb andb].
  eexists. split; [reflexivity |]. cbn [np.dim0 np.dim1 np.dim2 np.item3].
  repeat split.
Qed.

Lemma stretch_inside (n i : Z) : 0 <= i < n -> np.stretch n i = i.
Proof.
  intros Hi. unfold np.stretch. destruct (Z.eqb_spec n 1); [lia | reflexivity].
Qed.

(** Storing a float that is a whole number between 0 and 255 in an
    8-bit image keeps it. *)
Lemma uint8_whole (q : Q) (n : Z) :
  0 <= n < 256 -> (q == inject_Z n)%Q -> np.uint8 q = inject_Z n.
Proof.
  intros Hn Hq. unfold np.uint8. unfold Qeq in Hq. cbn [Qnum Qden inject_Z] in Hq.
  rewrite Z.mul_1_r in Hq. rewrite Hq, Z.quot_mul by lia.
  rewrite Z.mod_small by lia. reflexivity.
Qed.

Lemma uint8_byte (q : Q) : byte q -> np.uint8 q = q.
Proof.
  intros (n & Hn & ->). apply uint8_whole; [exact Hn | reflexivity].
Qed.

(** The first weight of the ramp is one: there the blend is the left
    value, in float32 as in exact numbers. *)
Lemma full_weight_blend (l r : Q) (overlap_width n : Z) :
  1 <= overlap_width -> 0 <= n < 256 -> l = inject_Z n ->
  let w := np.f32 (np.f64 (inject_Z (overlap_width - 0)
                           / inject_Z overlap_width)%Q) in
  (np.f32 (np.f32 (l * w) + np.f32 (r * np.f32 (1 - w))) == inject_Z n)%Q.
Proof.
  intros Hov Hn -> w.
  assert (Hw : (w == inject_Z 1)%Q).
  { unfold w. apply Rounding.f32_whole; [lia |].
    apply Rounding.f64_whole; [lia |].
    rewrite Z.sub_0_r. change (inject_Z 1) with 1%Q.
    field. unfold Qeq. cbn. lia. }
  change (inject_Z 1) with 1%Q in Hw.
  assert (Hzero : np.f32 (1 - w) = 0%Q).
  { apply Rounding.f32_zero. rewrite Hw. ring. }
  rewrite Hzero.
  assert (Hright : np.f32 (r * 0) = 0%Q).
  { apply Rounding.f32_zero. ring. }
  rewrite Hright.
  assert (Hleft : (np.f32 (inject_Z n * w) == inject_Z n)%Q).
  { apply Rounding.f32_whole; [lia |]. rewrite Hw. ring. }
  apply Rounding.f32_whole; [lia |]. rewrite Hleft. ring.
Qed.

(** X14.  With an overlap of at least one column and at most the width
    of the images, [optimize_seams] puts two 8-bit images of [h] by [w]
    pixels side by side in an image of [h] by [2w - overlap] pixels.  The
    columns up to and including the first column of the overlap are
    those of the left image, unchanged (the first weight of the ramp is
    one, so the right image does not show there), and the columns from
    [w] on are those of the right image after its first [overlap]
    columns, unchanged. *)
Theorem optimize_seams_keeps_both_sides
        (left_img right_img : np.arr3 Q) (overlap_width h w : Z) :
  np.dim0 left_img = h -> np.dim1 left_img = w -> np.dim2 left_img = 3 ->
  np.dim0 right_img = h -> np.dim1 right_img = w -> np.dim2 right_img = 3 ->
  0 <= h -> 1 <= overlap_width <= w ->
  bytes left_img -> bytes right_img ->
  exists result,
    optimize_seams left_img right_img overlap_width = Ok result
    /\ np.dim0 result = h
    /\ np.dim1 result = 2 * w - overlap_width
    /\ np.dim2 result = 3
    /\ forall r c k,
         0 <= r < h -> 0 <= k < 3 ->
         (0 <= c <= w - overlap_width ->
          np.item3 result r c k = np.item3 left_img r c k)
         /\ (w <= c < 2 * w - overlap_width ->
             np.item3 result r c k
             = np.item3 right_img r (c - w + overlap_width) k).
Proof.
  intros Hl0 Hl1 Hl2 Hr0 Hr1 Hr2 Hh Hov Hlb Hrb.
  unfold optimize_seams. cbv beta iota zeta. rewrite Hl0, Hl1.
  destruct (zeros_cases 0%Q h overlap_width) as [Hz | (Hz & _)].
  { unfold np.zeros in Hz.
    destruct (Z.ltb_spec h 0); [lia |].
    destruct (Z.ltb_spec overlap_width 0); [lia | discriminate]. }
  rewrite Hz. clear Hz. cbn [bind].
  destruct (SeamBlend.fill_columns
              (fun i => np.f32 (np.f64 (inject_Z (overlap_width - i)
                                         / inject_Z overlap_width)%Q))
              (range overlap_width)
              (np.mk2 h overlap_width (fun _ _ => 0%Q)))
    as (weight & Hfill & Hw0 & Hw1); [apply SeamBlend.range_bounds |].
  rewrite Hfill.
  pose proof (SeamBlend.fill_columns_item _ _ _ _
                (SeamBlend.range_bounds _) Hfill) as Hwi.
  clear Hfill. cbn [bind np.shape0 np.shape1] in *.
  destruct (map2_ok (fun l w => np.f32 (l * w)%Q)
              (np.columns left_img (Some (- overlap_width)) None)
              (np.expand_dims weight) h overlap_width 3)
    as (a & -> & Ha0 & Ha1 & Ha2 & Hai).
  { open_shapes. lia. }
  { open_shapes. rewrite Hl1, Hw1. split_clamps; lia. }
  { open_shapes. lia. }
  cbn [bind].
  destruct (map2_ok (fun r w => np.f32 (r * w)%Q)
              (np.columns right_img None (Some overlap_width))
              (np.map1 (fun w => np.f32 (1 - w)%Q) (np.expand_dims weight))
              h overlap_width 3)
    as (b & -> & Hb0 & Hb1 & Hb2 & Hbi).
  { open_shapes. lia. }
  { open_shapes. rewrite Hr1, Hw1. split_clamps; lia. }
  { open_shapes. lia. }
  cbn [bind].
  destruct (map2_ok (fun x y => np.f32 (x + y)%Q) a b h overlap_width 3)
    as (bl & -> & Hbl0 & Hbl1 & Hbl2 & Hbli).
  { unfold broadcasts. lia. }
  { unfold broadcasts. lia. }
  { unfold broadcasts. lia. }
  cbn [bind].
  destruct (zeros3_cases 0%Q h (w * 2 - overlap_width) 3) as [Hz | (-> & _)].
  { unfold np.zeros3 in Hz.
    destruct (Z.ltb_spec h 0); [lia |].
    destruct (Z.ltb_spec (w * 2 - overlap_width) 0); [lia | discriminate]. }
  cbn [bind].
  destruct (setcolumns_ok np.uint8
              (np.mk3 h (w * 2 - overlap_width) 3 (fun _ _ _ => 0%Q))
              None (Some (w - overlap_width))
              (np.columns left_img None (Some (w - overlap_width))))
    as (r1 & -> & Hr10 & Hr11 & Hr12 & Hi1).
  { open_shapes. lia. }
  { open_shapes. rewrite Hl1. split_clamps; lia. }
  { open_shapes. lia. }
  cbn [bind].
  destruct (setcolumns_ok np.uint8 r1 (Some (w - overlap_width)) (Some w) bl)
    as (r2 & -> & Hr20 & Hr21 & Hr22 & Hi2).
  { open_shapes. lia. }
  { rewrite Hr11. open_shapes. split_clamps; lia. }
  { open_shapes. lia. }
  cbn [bind].
  destruct (setcolumns_ok np.uint8 r2 (Some w) None
              (np.columns right_img (Some overlap_width) None))
    as (r3 & -> & Hr30 & Hr31 & Hr32 & Hi3).
  { open_shapes. lia. }
  { rewrite Hr21, Hr11. open_shapes. rewrite Hr1. split_clamps; lia. }
  { open_shapes. lia. }
  cbn [bind].
  exists r3. split; [reflexivity |].
  split; [open_shapes; lia |]. split; [open_shapes; lia |].
  split; [open_shapes; lia |].
  intros r c k Hr Hk. rewrite Hi3, Hi2, Hi1, Hr21, Hr11.
  cbn [np.dim1 np.dim0 np.dim2].
  unfold np.columns, np.slice_bounds, np.clamp.
  cbn [np.dim0 np.dim1 np.dim2 np.item3 fst snd].
  rewrite Hl0, Hl1, Hl2, Hr0, Hr1, Hr2, Hbl0, Hbl1, Hbl2.
  split; intros Hc; zero_clamps; min_max; decide_columns.
  - (* the first column of the overlap *)
    assert (c = w - overlap_width) as -> by lia.
    rewrite Z.sub_diag, Hbli, Hai, Hbi, Ha0, Ha1, Ha2, Hb0, Hb1, Hb2.
    unfold np.columns, np.slice_bounds, np.clamp.
    cbn [np.dim0 np.dim1 np.dim2 np.item3 fst snd np.expand_dims np.map1].
    rewrite !Hwi. cbn [np.item np.shape1].
    rewrite ?Hl0, ?Hl1, ?Hl2, ?Hr0, ?Hr1, ?Hr2, ?Hw0, ?Hw1.
    zero_clamps. min_max.
    rewrite !(stretch_inside h r), !(stretch_inside 3 k),
      !(stretch_inside _ 0) by lia.
    rewrite SeamBlend.range_has by lia.
    replace (- overlap_width + w + 0) with (w - overlap_width) by lia.
    destruct (Hlb r (w - overlap_width) k) as (n & Hn & Hln); [lia | lia | lia |].
    rewrite Hln at 2. apply uint8_whole; [exact Hn |].
    apply full_weight_blend; [lia | exact Hn | exact Hln].
  - rewrite !stretch_inside by lia.
    replace (0 + (c - 0)) with c by lia.
    apply uint8_byte. apply Hlb; lia.
  - rewrite !stretch_inside by lia.
    replace (overlap_width + (c - w)) with (c - w + overlap_width) by lia.
    apply uint8_byte. apply Hrb; lia.
Qed.

Lemma optimize_seams_keeps_both_sides_witness :
  exists result,
    optimize_seams left4 right4 2 = Ok result
    /\ np.dim0 result = 2
    /\ np.dim1 result = 2 * 4 - 2
    /\ np.dim2 result = 3
    /\ forall r c k,
         0 <= r < 2 -> 0 <= k < 3 ->
         (0 <= c <= 4 - 2 ->
          np.item3 result r c k = np.item3 left4 r c k)
         /\ (4 <= c < 2 * 4 - 2 ->
             np.item3 result r c k = np.item3 right4 r (c - 4 + 2) k).
Proof.
  apply (optimize_seams_keeps_both_sides left4 right4 2 2 4);
    try reflexivity; try lia.
  - intros r c k _ Hc _. exists (10 + c). cbn in Hc. split; [lia | reflexivity].
  - intros r c k _ Hc _. exists (20 + c). cbn in Hc. split; [lia | reflexivity].
Defined.

End OfflineSeams.

(** ** The colour balance *)
Module ColorBalance.
Import Py advanced_processing.
Import ColorNotions.
Local Open Scope Z_scope.

Lemma nth_range {A} (f : Z -> A) (n v : Z) (d : A) :
  0 <= v < n -> nth (Z.to_nat v) (map f (range n)) d = f v.
Proof.
  intros Hv. unfold range. rewrite map_map.
  rewrite (nth_indep _ d (f (Z.of_nat 0)))
    by (rewrite length_map, length_seq; lia).
  rewrite (map_nth (fun i => f (Z.of_nat i))), seq_nth by lia.
  f_equal. lia.
Qed.

Lemma stretched_low (low high : Z) :
  low < high -> (stretched low high low == inject_Z 0)%Q.
Proof.
  intros Hlh. unfold stretched. rewrite Z.sub_diag.
  assert (Hnz : ~ (inject_Z (high - low) == 0)%Q) by (unfold Qeq; cbn; lia).
  change (inject_Z 0) with 0%Q. field. exact Hnz.
Qed.

Lemma stretched_high (low high : Z) :
  low < high -> (stretched low high high == inject_Z 255)%Q.
Proof.
  intros Hlh. unfold stretched.
  assert (Hnz : ~ (inject_Z (high - low) == 0)%Q) by (unfold Qeq; cbn; lia).
  change (inject_Z 255) with 255%Q. field. exact Hnz.
Qed.

Lemma stretched_le (low high i j : Z) :
  low < high -> i <= j -> (stretched low high i <= stretched low high j)%Q.
Proof.
  intros Hlh Hij. unfold stretched, Qdiv.
  apply Qmult_le_compat_r.
  - apply Qmult_le_l; [reflexivity |]. rewrite <- Zle_Qle. lia.
  - apply Qinv_le_0_compat. change 0%Q with (inject_Z 0).
    rewrite <- Zle_Qle. lia.
Qed.

Lemma count_occ_uniform (l : list Z) (v x : Z) :
  Forall (eq v) l ->
  Z.of_nat (count_occ Z.eq_dec l x)
  = if x =? v then Z.of_nat (List.length l) else 0.
Proof.
  induction 1 as [| y l <- _ IH].
  - cbn. destruct (x =? v); reflexivity.
  - cbn [count_occ List.length]. destruct (Z.eq_dec v x) as [<- | Hne].
    + rewrite Z.eqb_refl in *. lia.
    + destruct (Z.eqb_spec x v); [congruence | exact IH].
Qed.

Lemma values_uniform (img : np.arr3 Z) (k v : Z) :
  (forall r c, 0 <= r < np.dim0 img -> 0 <= c < np.dim1 img ->
               np.item3 img r c k = v) ->
  Forall (eq v) (values img k).
Proof.
  intros Hv. apply Forall_forall. intros x Hx. unfold values in Hx.
  apply in_flat_map in Hx. destruct Hx as (r & Hr & Hx).
  apply in_map_iff in Hx. destruct Hx as (c & <- & Hc).
  pose proof (SeamBlend.range_bounds (np.dim0 img)) as H0.
  pose proof (SeamBlend.range_bounds (np.dim1 img)) as H1.
  rewrite Forall_forall in H0, H1. symmetry. apply Hv; auto.
Qed.

Lemma values_length (img : np.arr3 Z) (k : Z) :
  List.length (values img k)
  = (Z.to_nat (np.dim0 img) * Z.to_nat (np.dim1 img))%nat.
Proof.
  unfold values.
  assert (Hrows : forall l : list Z,
             List.length
               (flat_map (fun r => map (fun c => np.item3 img r c k)
                                       (range (np.dim1 img))) l)
             = (List.length l * Z.to_nat (np.dim1 img))%nat).
  { induction l as [| r l IH]; [reflexivity |].
    cbn [flat_map List.length]. rewrite length_app, IH, length_map.
    unfold range. rewrite length_map, length_seq. lia. }
  rewrite Hrows. unfold range. rewrite length_map, length_seq. reflexivity.
Qed.

(** The histogram of a channel of one value is a spike at that value. *)
Lemma calcHist_uniform (ch : list Z) (v : Z) :
  Forall (eq v) ch -> calcHist ch = spike v (Z.of_nat (List.length ch)).
Proof.
  intros Hch. unfold calcHist, spike. apply map_ext. intros x.
  rewrite (count_occ_uniform ch v x Hch). reflexivity.
Qed.

(** The running sum of a spike is a step. *)
Lemma cumsum_from_step (v N : Z) :
  1 <= N ->
  forall (n s : nat) (acc : Q),
    step v (np.f32 (inject_Z N)) (Z.of_nat s - 1) acc ->
    Forall2 (step v (np.f32 (inject_Z N)))
      (map Z.of_nat (seq s n))
      (np.cumsum_from acc
         (map (fun i => np.f32 (inject_Z (if i =? v then N else 0)))
              (map Z.of_nat (seq s n)))).
Proof.
  intros HN. destruct (Rounding.f32_count N HN) as [_ Hfixed].
  induction n as [| n IH]; intros s acc Hacc; [constructor |].
  cbn [seq map np.cumsum_from].
  assert (Hnext : step v (np.f32 (inject_Z N)) (Z.of_nat s)
                    (np.f32 (acc + np.f32 (inject_Z (if Z.of_nat s =? v
                                                     then N else 0))))).
  { unfold step in *.
    destruct (Z.ltb_spec (Z.of_nat s - 1) v);
      destruct (Z.ltb_spec (Z.of_nat s) v);
      destruct (Z.eqb_spec (Z.of_nat s) v); try lia.
    - rewrite Rounding.f32_zero; [reflexivity |].
      rewrite Hacc. reflexivity.
    - apply Hfixed. rewrite Hacc. ring.
    - apply Hfixed. rewrite Hacc. change (np.f32 (inject_Z 0)) with 0%Q. ring. }
  constructor; [exact Hnext |].
  apply IH. replace (Z.of_nat (S s) - 1) with (Z.of_nat s) by lia. exact Hnext.
Qed.

Lemma cumsum_step (v N : Z) :
  1 <= N -> 0 <= v ->
  Forall2 (step v (np.f32 (inject_Z N))) (range 256) (np.cumsum (spike v N)).
Proof.
  intros HN Hv. unfold spike, range.
  change (Z.to_nat 256) with (S 255). cbn [seq map np.cumsum].
  assert (Hfirst : step v (np.f32 (inject_Z N)) (Z.of_nat 0)
                     (np.f32 (inject_Z (if Z.of_nat 0 =? v then N else 0)))).
  { unfold step. change (Z.of_nat 0) with 0.
    destruct (Z.ltb_spec 0 v); destruct (Z.eqb_spec 0 v); try lia; reflexivity. }
  constructor; [exact Hfirst |].
  apply (cumsum_from_step v N HN 255 1). exact Hfirst.
Qed.

(** The last entry of the running sum is the total. *)
Lemma last_step (v : Z) (total : Q) (cdf : list Q) :
  v <= 255 -> Forall2 (step v total) (range 256) cdf ->
  (last cdf 0 == total)%Q.
Proof.
  intros Hv Hstep. unfold range in Hstep.
  change (Z.to_nat 256) with (S 255) in Hstep.
  rewrite seq_S, map_app in Hstep. cbn [map Nat.add] in Hstep.
  apply Forall2_app_inv_l in Hstep.
  destruct Hstep as (front & back & _ & Hback & ->).
  inversion Hback as [| ? c ? rest Hc Hrest]; subst.
  inversion Hrest; subst. rewrite last_last.
  unfold step in Hc. change (Z.of_nat 255) with 255 in Hc.
  destruct (Z.ltb_spec 255 v); [lia | exact Hc].
Qed.

(** Searching the fractions of a step for a value above [0] and not
    above [1] stops where the step is. *)
Lemma searchsorted_step (v : Z) (total divisor x : Q) :
  (0 < total)%Q -> (divisor == total)%Q ->
  (forall q, (q == total)%Q -> (np.f32 q == total)%Q) ->
  (0 < x)%Q -> (x <= 1)%Q ->
  forall (n s : nat) (cdf : list Q),
    Forall2 (step v total) (map Z.of_nat (seq s n)) cdf ->
    Z.of_nat s <= v < Z.of_nat (s + n) ->
    np.searchsorted (map (fun c => np.truediv32 c divisor) cdf) x
    = v - Z.of_nat s.
Proof.
  intros Htotal Hdiv Hfixed Hx0 Hx1.
  assert (Hnz : Qeq_bool divisor 0 = false).
  { destruct (Qeq_bool divisor 0) eqn:Hz; [| reflexivity].
    apply Qeq_bool_eq in Hz. rewrite Hdiv in Hz. rewrite Hz in Htotal.
    discriminate. }
  induction n as [| n IH]; intros s cdf Hstep Hv; [lia |].
  cbn [seq map] in Hstep.
  inversion Hstep as [| i c ? rest Hc Hrest]; subst.
  cbn [map np.searchsorted]. unfold np.truediv32 at 1. rewrite Hnz.
  cbn [np.below]. unfold step in Hc.
  destruct (Z.ltb_spec (Z.of_nat s) v) as [Hbefore | Hat].
  - rewrite Rounding.f32_zero.
    2:{ rewrite Hc. unfold Qdiv. ring. }
    assert (Hle : Qle_bool x 0 = false).
    { destruct (Qle_bool x 0) eqn:Hb; [| reflexivity].
      apply Qle_bool_iff in Hb. exfalso. Lqa.lra. }
    rewrite Hle. cbn [negb].
    rewrite (IH (S s) rest Hrest) by lia. lia.
  - assert (Hone : (np.f32 (c / divisor) == 1)%Q).
    { apply (Rounding.f32_whole _ 1); [lia |].
      rewrite Hc, Hdiv. change (inject_Z 1) with 1%Q.
      field. Lqa.lra. }
    assert (Hle : Qle_bool x (np.f32 (c / divisor)) = true).
    { apply Qle_bool_iff. rewrite Hone. exact Hx1. }
    rewrite Hle. cbn [negb]. lia.
Qed.

(** A channel of [n > 0] pixels of the one value [v]: both cut points
    are [v]. *)
Lemma cut_points_uniform (ch : list Z) (v : Z) :
  ch <> [] -> 0 <= v <= 255 -> Forall (eq v) ch -> cut_points ch = (v, v).
Proof.
  intros Hne Hv Hch. unfold cut_points. rewrite (calcHist_uniform ch v Hch).
  set (N := Z.of_nat (List.length ch)).
  assert (HN : 1 <= N).
  { unfold N. destruct ch; [congruence | cbn [List.length]; lia]. }
  destruct (Rounding.f32_count N HN) as [Hpos Hfixed].
  pose proof (cumsum_step v N HN ltac:(lia)) as Hstep.
  pose proof (last_step v _ _ ltac:(lia) Hstep) as Hlast.
  cbv zeta.
  rewrite !(searchsorted_step v (np.f32 (inject_Z N))
              (last (np.cumsum (spike v N)) 0%Q) _ Hpos Hlast Hfixed)
    with (n := 256%nat) (s := 0%nat);
    try exact Hstep; try (cbn; lia); try (vm_compute; reflexivity);
    try (vm_compute; discriminate).
  f_equal; lia.
Qed.

Section casts.
Variable cast_invalid : np.float -> Z.

(** Between two different cut points the table holds the rounded
    stretch. *)
Lemma lookup_entry_inside (low high i : Z) :
  low < high -> low <= i <= high ->
  lookup_entry cast_invalid low high i
  = np.round_half_even (stretched low high i)
  /\ 0 <= np.round_half_even (stretched low high i) <= 255.
Proof.
  intros Hlh Hi.
  assert (Hrange : 0 <= np.round_half_even (stretched low high i) <= 255).
  { split.
    - rewrite <- (Rounding.round_half_even_whole _ 0 (stretched_low low high Hlh)).
      apply Rounding.round_half_even_le, stretched_le; lia.
    - rewrite <- (Rounding.round_half_even_whole _ 255 (stretched_high low high Hlh)).
      apply Rounding.round_half_even_le, stretched_le; lia. }
  split; [| exact Hrange].
  unfold lookup_entry.
  destruct (Z.ltb_spec i low); [lia |].
  destruct (Z.ltb_spec high i); [lia |].
  unfold np.truediv.
  destruct (Qeq_bool (inject_Z (high - low)) 0) eqn:Hz.
  { apply Qeq_bool_eq in Hz. unfold Qeq in Hz. cbn in Hz. lia. }
  cbn [np.round to_uint8]. fold (stretched low high i).
  cbn [inject_Z Qnum Qden]. rewrite Z.quot_1_r. apply Z.mod_small. lia.
Qed.

Lemma lookup_entry_range (low high i : Z) :
  low < high -> 0 <= lookup_entry cast_invalid low high i <= 255.
Proof.
  intros Hlh.
  destruct (Z.lt_ge_cases i low) as [Hlo | Hlo].
  { unfold lookup_entry. destruct (Z.ltb_spec i low); lia. }
  destruct (Z.lt_ge_cases high i) as [Hhi | Hhi].
  { unfold lookup_entry. destruct (Z.ltb_spec i low); [lia |].
    destruct (Z.ltb_spec high i); lia. }
  destruct (lookup_entry_inside low high i Hlh) as [-> ?]; lia.
Qed.

Lemma lookup_entry_le (low high i j : Z) :
  low < high -> i <= j ->
  lookup_entry cast_invalid low high i <= lookup_entry cast_invalid low high j.
Proof.
  intros Hlh Hij.
  destruct (Z.lt_ge_cases i low) as [Hlo | Hlo].
  { pose proof (lookup_entry_range low high j Hlh).
    unfold lookup_entry at 1. destruct (Z.ltb_spec i low); lia. }
  destruct (Z.lt_ge_cases high j) as [Hhi | Hhi].
  { pose proof (lookup_entry_range low high i Hlh).
    unfold lookup_entry at 2. destruct (Z.ltb_spec j low); [lia |].
    destruct (Z.ltb_spec high j); lia. }
  destruct (lookup_entry_inside low high i Hlh) as [-> _]; [lia |].
  destruct (lookup_entry_inside low high j Hlh) as [-> _]; [lia |].
  apply Rounding.round_half_even_le, stretched_le; lia.
Qed.

Lemma lookup_entry_ends (low high i : Z) :
  low < high ->
  (i <= low -> lookup_entry cast_invalid low high i = 0)
  /\ (high <= i -> lookup_entry cast_invalid low high i = 255).
Proof.
  intros Hlh. split; intros Hi.
  - destruct (Z.eq_dec i low) as [-> | Hne].
    + destruct (lookup_entry_inside low high low Hlh) as [-> _]; [lia |].
      apply Rounding.round_half_even_whole, stretched_low, Hlh.
    + unfold lookup_entry. destruct (Z.ltb_spec i low); lia.
  - destruct (Z.eq_dec i high) as [-> | Hne].
    + destruct (lookup_entry_inside low high high Hlh) as [-> _]; [lia |].
      apply Rounding.round_half_even_whole, stretched_high, Hlh.
    + unfold lookup_entry. destruct (Z.ltb_spec i low); [lia |].
      destruct (Z.ltb_spec high i); lia.
Qed.

(** X15.  Where the two cut points of a channel differ, [color_balance]
    keeps the order of the values of that channel: a pixel that is not
    brighter than another one is not brighter afterwards.  The results
    are 8-bit values, the values up to the lower cut point become 0 and
    those from the higher cut point on become 255. *)
Theorem color_balance_keeps_order (img : np.arr3 Z) (k low high : Z) :
  0 < np.dim0 img -> 0 < np.dim1 img -> np.dim2 img = 3 ->
  cut_points (values img k) = (low, high) -> low < high ->
  exists balanced,
    color_balance cast_invalid img = Ok balanced
    /\ np.dim0 balanced = np.dim0 img /\ np.dim1 balanced = np.dim1 img
    /\ np.dim2 balanced = 3
    /\ (forall r c,
          0 <= np.item3 img r c k <= 255 ->
          0 <= np.item3 balanced r c k <= 255
          /\ (np.item3 img r c k <= low -> np.item3 balanced r c k = 0)
          /\ (high <= np.item3 img r c k -> np.item3 balanced r c k = 255))
    /\ (forall r c r' c',
          0 <= np.item3 img r c k <= 255 ->
          0 <= np.item3 img r' c' k <= 255 ->
          np.item3 img r c k <= np.item3 img r' c' k ->
          np.item3 balanced r c k <= np.item3 balanced r' c' k).
Proof.
  intros Hh Hw Hd Hcut Hlh. unfold color_balance. rewrite Hd.
  destruct (Z.ltb_spec 0 (np.dim0 img)); [| lia].
  destruct (Z.ltb_spec 0 (np.dim1 img)); [| lia].
  cbn [andb Z.eqb Pos.eqb].
  eexists. split; [reflexivity |]. cbn [np.dim0 np.dim1 np.dim2 np.item3].
  rewrite Hcut. unfold LUT, lookup.
  repeat split.
  - rewrite nth_range by lia. apply lookup_entry_range, Hlh.
  - rewrite nth_range by lia. apply lookup_entry_range, Hlh.
  - intros Hle. rewrite nth_range by lia. apply lookup_entry_ends; assumption.
  - intros Hle. rewrite nth_range by lia. apply lookup_entry_ends; assumption.
  - intros r c r' c' Hb Hb' Hle. rewrite !nth_range by lia.
    apply lookup_entry_le; assumption.
Qed.

(** X16.  On an image in which a channel has one value at every pixel
    both cut points of that channel are this value, so that the one
    table entry the channel reads is computed as [0 / 0]: every pixel of
    the balanced channel holds what the conversion of NaN to [uint8]
    gives, whatever the value of the channel was. *)
Theorem color_balance_uniform_channel (img : np.arr3 Z) (k v : Z) :
  np.dim2 img = 3 -> 0 < np.dim0 img -> 0 < np.dim1 img ->
  0 <= k < 3 -> 0 <= v <= 255 ->
  (forall r c, 0 <= r < np.dim0 img -> 0 <= c < np.dim1 img ->
               np.item3 img r c k = v) ->
  cut_points (values img k) = (v, v)
  /\ exists balanced,
       color_balance cast_invalid img = Ok balanced
       /\ forall r c, 0 <= r < np.dim0 img -> 0 <= c < np.dim1 img ->
                      np.item3 balanced r c k = cast_invalid np.nan.
Proof.
  intros Hd Hh Hw Hk Hv Hall.
  assert (Hcut : cut_points (values img k) = (v, v)).
  { apply cut_points_uniform; [| exact Hv | apply values_uniform, Hall].
    intros Hnil. apply (f_equal (@List.length Z)) in Hnil.
    rewrite values_length in Hnil. cbn [List.length] in Hnil. nia. }
  split; [exact Hcut |].
  unfold color_balance. rewrite Hd.
  destruct (Z.ltb_spec 0 (np.dim0 img)); [| lia].
  destruct (Z.ltb_spec 0 (np.dim1 img)); [| lia].
  cbn [andb Z.eqb Pos.eqb].
  eexists. split; [reflexivity |]. intros r c Hr Hc.
  cbn [np.item3]. rewrite Hcut, (Hall r c Hr Hc). unfold LUT, lookup.
  rewrite nth_range by lia. unfold lookup_entry.
  destruct (Z.ltb_spec v v); [lia |]. rewrite Z.sub_diag. reflexivity.
Qed.

End casts.

Lemma color_balance_keeps_order_witness :
  exists balanced,
    color_balance to_zero bands = Ok balanced
    /\ np.dim0 balanced = 1 /\ np.dim1 balanced = 3 /\ np.dim2 balanced = 3
    /\ (forall r c,
          0 <= np.item3 bands r c 1 <= 255 ->
          0 <= np.item3 balanced r c 1 <= 255
          /\ (np.item3 bands r c 1 <= 11 -> np.item3 balanced r c 1 = 0)
          /\ (31 <= np.item3 bands r c 1 -> np.item3 balanced r c 1 = 255))
    /\ (forall r c r' c',
          0 <= np.item3 bands r c 1 <= 255 ->
          0 <= np.item3 bands r' c' 1 <= 255 ->
          np.item3 bands r c 1 <= np.item3 bands r' c' 1 ->
          np.item3 balanced r c 1 <= np.item3 balanced r' c' 1).
Proof.
  apply (color_balance_keeps_order to_zero bands 1 11 31);
    [cbn; lia | cbn; lia | reflexivity | vm_compute; reflexivity | lia].
Defined.

Lemma color_balance_uniform_channel_witness :
  cut_points (values flat 2) = (102, 102)
  /\ exists balanced,
       color_balance to_zero flat = Ok balanced
       /\ forall r c, 0 <= r < np.dim0 flat -> 0 <= c < np.dim1 flat ->
                      np.item3 balanced r c 2 = to_zero np.nan.
Proof.
  apply (color_balance_uniform_channel to_zero flat 2 102); cbn; lia.
Defined.

End ColorBalance.
